(** * gittoolbox: version metadata and branch-sync checks

    A shallow embedding of [gittoolbox.go] (package [gittoolbox]) and the
    properties of its two public operations, [GetVersionMetadata] and
    [AssertBranchIsCleanAndSynced].

    Conventions of the embedding.
    - A Go [string] is a byte sequence: Stdlib's [string], one [ascii] per
      byte.
    - Go's [int] is the 64-bit signed integer and [rune] the 32-bit one;
      both live in [Z] with the wrap-around written out ([int.wrap],
      [int32]).
    - The file system and the [git] subprocess are external: the program
      is a tree of calls ([Prog]) whose answers come from a [World];
      running it gives its result and the calls it made, in order.
    - A function body that can [return] early is a [Prog (R + A)]:
      [inl r] means the function has returned [r].
    - The parts of Go's standard library the program calls ([strings],
      [unicode/utf8], [path/filepath] on a Unix host, [fmt]) are modelled
      in modules of the same names. *)

From Stdlib Require Import String Ascii List ZArith NArith Bool Lia.
Import ListNotations.

Local Open Scope list_scope.
Local Open Scope string_scope.

(** ** Bytes and machine integers *)

Definition byte (c : ascii) : Z := Z.of_N (N_of_ascii c).
Definition ofByte (b : Z) : ascii := ascii_of_N (Z.to_N b).

Definition LF : ascii := "010"%char.

Module int.
(** Two's-complement wrap-around to [bits] bits. *)
Definition wrap (bits x : Z) : Z :=
  ((x + 2 ^ (bits - 1)) mod 2 ^ bits - 2 ^ (bits - 1))%Z.
(** Go's [int] on the 64-bit targets. *)
Definition add (x y : Z) : Z := wrap 64 (x + y).
Definition sub (x y : Z) : Z := wrap 64 (x - y).
End int.

(** The conversion [rune(x)] of an [int]: truncation to 32 bits. *)
Definition int32 (x : Z) : Z := int.wrap 32 x.

(** ** Strings as byte sequences *)

Fixpoint drop (n : nat) (s : string) : string :=
  match n, s with
  | S n', String _ s' => drop n' s'
  | _, _ => s
  end.

Fixpoint take (n : nat) (s : string) : string :=
  match n, s with
  | S n', String c s' => String c (take n' s')
  | _, _ => ""
  end.

(** ** unicode/utf8 *)

Module utf8.
Definition RuneError : Z := 0xFFFD.
Definition RuneSelf : Z := 0x80.

Definition between (lo hi : Z) (c : ascii) : bool :=
  ((lo <=? byte c) && (byte c <=? hi))%Z.

(** [utf8.DecodeRuneInString]: the first rune of [s] and its width in
    bytes; [(RuneError, 1)] on an invalid or short encoding and
    [(RuneError, 0)] on the empty string.  The tests on the first byte
    spell out the table [first] and its accept ranges. *)
Definition DecodeRuneInString (s : string) : Z * nat :=
  match s with
  | EmptyString => (RuneError, 0)
  | String c0 t =>
      let s0 := byte c0 in
      if (s0 <? RuneSelf)%Z then (s0, 1)
      else if ((s0 <? 0xC2) || (0xF4 <? s0))%Z then (RuneError, 1)
      else
        let lo := (if s0 =? 0xE0 then 0xA0 else if s0 =? 0xF0 then 0x90 else 0x80)%Z in
        let hi := (if s0 =? 0xED then 0x9F else if s0 =? 0xF4 then 0x8F else 0xBF)%Z in
        match t with
        | EmptyString => (RuneError, 1)
        | String c1 t1 =>
            if negb (between lo hi c1) then (RuneError, 1)
            else if (s0 <? 0xE0)%Z then
              (Z.lor (Z.shiftl (Z.land s0 0x1F) 6) (Z.land (byte c1) 0x3F), 2)
            else
              match t1 with
              | EmptyString => (RuneError, 1)
              | String c2 t2 =>
                  if negb (between 0x80 0xBF c2) then (RuneError, 1)
                  else if (s0 <? 0xF0)%Z then
                    (Z.lor (Z.shiftl (Z.land s0 0x0F) 12)
                       (Z.lor (Z.shiftl (Z.land (byte c1) 0x3F) 6)
                          (Z.land (byte c2) 0x3F)), 3)
                  else
                    match t2 with
                    | EmptyString => (RuneError, 1)
                    | String c3 _ =>
                        if negb (between 0x80 0xBF c3) then (RuneError, 1)
                        else
                          (Z.lor (Z.shiftl (Z.land s0 0x07) 18)
                             (Z.lor (Z.shiftl (Z.land (byte c1) 0x3F) 12)
                                (Z.lor (Z.shiftl (Z.land (byte c2) 0x3F) 6)
                                   (Z.land (byte c3) 0x3F))), 4)
                    end
              end
        end
  end.

(** The continuation byte carrying bits [6k+5 .. 6k] of [r]. *)
Definition tail (r k : Z) : ascii :=
  ofByte (Z.lor 0x80 (Z.land (Z.shiftr r (6 * k)) 0x3F)).

(** [utf8.AppendRune(nil, r)]: the UTF-8 encoding of [r]; a surrogate
    or a value outside [0 .. 0x10FFFF] is encoded as [RuneError]. *)
Definition encode (r : Z) : string :=
  let valid := ((0 <=? r) && (r <=? 0x10FFFF) && negb ((0xD800 <=? r) && (r <=? 0xDFFF)))%Z in
  let r := if valid then r else RuneError in
  if (r <=? 0x7F)%Z then String (ofByte r) ""
  else if (r <=? 0x7FF)%Z then
    String (ofByte (Z.lor 0xC0 (Z.shiftr r 6))) (String (tail r 0) "")
  else if (r <=? 0xFFFF)%Z then
    String (ofByte (Z.lor 0xE0 (Z.shiftr r 12)))
      (String (tail r 1) (String (tail r 0) ""))
  else
    String (ofByte (Z.lor 0xF0 (Z.shiftr r 18)))
      (String (tail r 2) (String (tail r 1) (String (tail r 0) ""))).

(** The runes of [s] in order, each with the bytes it was decoded from:
    what [for _, r := range s] visits. *)
Fixpoint runesN (fuel : nat) (s : string) : list (Z * string) :=
  match fuel, s with
  | S fuel', String _ _ =>
      let '(r, size) := DecodeRuneInString s in
      (r, take size s) :: runesN fuel' (drop size s)
  | _, _ => []
  end.

Definition runes (s : string) : list (Z * string) := runesN (String.length s) s.

Definition bytesOf (rs : list (Z * string)) : string :=
  fold_right (fun x acc => snd x ++ acc) "" rs.
End utf8.

(** The conversion [string(r)] of a rune. *)
Definition string_of_rune (r : Z) : string := utf8.encode r.

(** ** unicode *)

Module unicode.
(** [unicode.IsSpace]: the code points with the White_Space property. *)
Definition IsSpace (r : Z) : bool :=
  (((0x09 <=? r) && (r <=? 0x0D)) || (r =? 0x20) || (r =? 0x85) || (r =? 0xA0)
   || (r =? 0x1680) || ((0x2000 <=? r) && (r <=? 0x200A))
   || (r =? 0x2028) || (r =? 0x2029) || (r =? 0x202F) || (r =? 0x205F)
   || (r =? 0x3000))%Z.
End unicode.

(** ** strings *)

Module strings.
(** [strings.ContainsAny(s, chars)] for a set [chars] of ASCII
    characters: some byte of [s] is one of them (a byte of a multi-byte
    rune is never ASCII). *)
Fixpoint IndexByte (s : string) (c : ascii) : bool :=
  match s with
  | EmptyString => false
  | String d s' => (d =? c)%char || IndexByte s' c
  end.

Fixpoint ContainsAny (s chars : string) : bool :=
  match s with
  | EmptyString => false
  | String c s' => IndexByte chars c || ContainsAny s' chars
  end.

(** [strings.Split(s, sep)] for a one-byte separator: the pieces of [s]
    between the occurrences of [sep], one more than there are
    occurrences. *)
Fixpoint Split (s : string) (sep : ascii) : list string :=
  match s with
  | EmptyString => [""]
  | String c s' =>
      if (c =? sep)%char then "" :: Split s' sep
      else
        match Split s' sep with
        | piece :: pieces => String c piece :: pieces
        | [] => [String c ""]
        end
  end.

Fixpoint dropWhile {A} (f : A -> bool) (l : list A) : list A :=
  match l with
  | x :: l' => if f x then dropWhile f l' else l
  | [] => []
  end.

Definition isSpace (x : Z * string) : bool := unicode.IsSpace (fst x).

(** [strings.TrimSpace]: [s] without its leading and trailing white
    space runes.  A white space rune ends [s] exactly when it is the
    last rune of the left-to-right decoding: its first byte is no
    continuation byte, so no longer rune can cover it. *)
Definition TrimSpace (s : string) : string :=
  utf8.bytesOf (rev (dropWhile isSpace (rev (dropWhile isSpace (utf8.runes s))))).

(** [strings.Fields]: the maximal runs of runes that are not white
    space.  [cur] is the field being read, if any. *)
Fixpoint fieldsOf (rs : list (Z * string)) (cur : option string) : list string :=
  match rs with
  | [] => match cur with Some f => [f] | None => [] end
  | x :: rs' =>
      if isSpace x then
        match cur with
        | Some f => f :: fieldsOf rs' None
        | None => fieldsOf rs' None
        end
      else
        fieldsOf rs' (Some (match cur with Some f => f ++ snd x | None => snd x end))
  end.

Definition Fields (s : string) : list string := fieldsOf (utf8.runes s) None.

(** [strings.Join]. *)
Fixpoint Join (elems : list string) (sep : string) : string :=
  match elems with
  | [] => ""
  | [e] => e
  | e :: elems' => e ++ sep ++ Join elems' sep
  end.
End strings.

(** ** Errors *)

(** Go's [error] values as the program sees them: a message, and for the
    result of [fmt.Errorf] with [%w] the error it wraps. *)
Inductive error : Type :=
| errorString (s : string)
| wrapError (msg : string) (err : error).

Definition Error (e : error) : string :=
  match e with
  | errorString s => s
  | wrapError msg _ => msg
  end.

(** ** The host: file system and subprocesses *)

(** [os.FileInfo] and [os.DirEntry], with the methods the program calls. *)
Record FileInfo : Type := { fi_IsDir : bool }.
Record DirEntry : Type := { de_Name : string; de_IsDir : bool }.

(** [*exec.Cmd]: the program, its arguments and the directory it runs in
    ([""]: the caller's). *)
Record Cmd : Type := { cmd_Name : string; cmd_Args : list string; cmd_Dir : string }.

(** A computation that calls the host.  Each call carries the rest of
    the computation, which receives the host's answer: for [os.Stat],
    [os.ReadDir] and [filepath.Glob] the error or the value, for
    [Cmd.Run] the combined standard output and standard error and the
    error of the run. *)
Inductive Prog (A : Type) : Type :=
| Ret (a : A)
| CallStat (name : string) (k : error + FileInfo -> Prog A)
| CallReadDir (name : string) (k : error + list DirEntry -> Prog A)
| CallGlob (pattern : string) (k : error + list string -> Prog A)
| CallRun (cmd : Cmd) (k : string * option error -> Prog A).

Arguments Ret {A} a.
Arguments CallStat {A} name k.
Arguments CallReadDir {A} name k.
Arguments CallGlob {A} pattern k.
Arguments CallRun {A} cmd k.

Fixpoint bind {A B : Type} (m : Prog A) (f : A -> Prog B) : Prog B :=
  match m with
  | Ret a => f a
  | CallStat name k => CallStat name (fun x => bind (k x) f)
  | CallReadDir name k => CallReadDir name (fun x => bind (k x) f)
  | CallGlob pattern k => CallGlob pattern (fun x => bind (k x) f)
  | CallRun cmd k => CallRun cmd (fun x => bind (k x) f)
  end.

(** A function body with result type [R]: [inl r] once it has executed
    [return r], [inr a] while it is still running with the value [a]. *)
Definition Body (R A : Type) : Type := Prog (R + A).

Definition Return {R A : Type} (r : R) : Body R A := Ret (inl r).
Definition Next {R A : Type} (a : A) : Body R A := Ret (inr a).

Definition andThen {R A B : Type} (m : Body R A) (f : A -> Body R B) : Body R B :=
  bind m (fun x => match x with inl r => Ret (inl r) | inr a => f a end).

(** [for _, x := range xs { body }] over the loop's variables [s]. *)
Fixpoint forRange {R A S : Type} (xs : list A) (body : A -> S -> Body R S) (s : S) : Body R S :=
  match xs with
  | [] => Next s
  | x :: xs' => andThen (body x s) (forRange xs' body)
  end.

(** The result of a function whose body ends in a [return]. *)
Definition returned {R : Type} (m : Body R R) : Prog R :=
  bind m (fun x => match x with inl r => Ret r | inr r => Ret r end).

Declare Scope prog_scope.
Delimit Scope prog_scope with prog.
Notation "x <- m ;; k" := (bind m (fun x => k))
  (at level 61, m at next level, right associativity) : prog_scope.
Notation "' pat <- m ;; k" := (bind m (fun x => match x with pat => k end))
  (at level 61, pat pattern, m at next level, right associativity) : prog_scope.
Notation "x <~ m ;; k" := (andThen m (fun x => k))
  (at level 61, m at next level, right associativity) : prog_scope.
Local Open Scope prog_scope.

(** The calls a run makes, in order. *)
Inductive Op : Type :=
| StatOp (name : string)
| ReadDirOp (name : string)
| GlobOp (pattern : string)
| RunOp (cmd : Cmd).

(** The host during one call of the library: what it answers to each
    call.  The same call has the same answer throughout; the file system
    and the history do not change while [GetVersionMetadata] runs, and
    the sync check puts each of its four queries once, so the answer to
    a query is the answer at the moment it is put. *)
Record World : Type := {
  stat : string -> error + FileInfo;
  readDir : string -> error + list DirEntry;
  glob : string -> error + list string;
  runCmd : Cmd -> string * option error
}.

(** [run w p]: the value [p] computes in the world [w] and the calls it
    makes. *)
Fixpoint run {A : Type} (w : World) (p : Prog A) : A * list Op :=
  match p with
  | Ret a => (a, [])
  | CallStat name k =>
      let '(a, tr) := run w (k (stat w name)) in (a, StatOp name :: tr)
  | CallReadDir name k =>
      let '(a, tr) := run w (k (readDir w name)) in (a, ReadDirOp name :: tr)
  | CallGlob pattern k =>
      let '(a, tr) := run w (k (glob w pattern)) in (a, GlobOp pattern :: tr)
  | CallRun cmd k =>
      let '(a, tr) := run w (k (runCmd w cmd)) in (a, RunOp cmd :: tr)
  end.

Definition eval {A : Type} (w : World) (p : Prog A) : A := fst (run w p).
Definition trace {A : Type} (w : World) (p : Prog A) : list Op := snd (run w p).

Module os.
Definition Stat (name : string) : Prog (error + FileInfo) := CallStat name Ret.
Definition ReadDir (name : string) : Prog (error + list DirEntry) := CallReadDir name Ret.
End os.

Module exec.
(** [exec.Command(name, arg...)]. *)
Definition Command (name : string) (arg : list string) : Cmd :=
  {| cmd_Name := name; cmd_Args := arg; cmd_Dir := "" |}.
Definition setDir (cmd : Cmd) (dir : string) : Cmd :=
  {| cmd_Name := cmd_Name cmd; cmd_Args := cmd_Args cmd; cmd_Dir := dir |}.
(** [cmd.Run()] with [cmd.Stdout] and [cmd.Stderr] set to one buffer:
    the contents of the buffer and the error of the run. *)
Definition Run (cmd : Cmd) : Prog (string * option error) := CallRun cmd Ret.
End exec.

(** ** path/filepath (Unix: the separator is [/], no volume names) *)

Module filepath.
Definition Separator : ascii := "/"%char.

Definition rooted (path : string) : bool :=
  match path with
  | String c _ => (c =? Separator)%char
  | EmptyString => false
  end.

(** The elements of a path are processed from left to right; [out]
    holds the elements kept so far, the last one first. *)
Fixpoint cleanElems (isRooted : bool) (elems out : list string) : list string :=
  match elems with
  | [] => rev out
  | e :: elems' =>
      if (e =? "") || (e =? ".") then cleanElems isRooted elems' out
      else if e =? ".." then
        match out with
        | top :: out' =>
            if top =? ".." then cleanElems isRooted elems' (e :: out)
            else cleanElems isRooted elems' out'
        | [] =>
            if isRooted then cleanElems isRooted elems' out
            else cleanElems isRooted elems' [e]
        end
      else cleanElems isRooted elems' (e :: out)
  end.

(** [filepath.Clean], by the rules of its documentation: runs of
    separators count as one, [.] elements are dropped, an inner [..]
    cancels the element before it, a [..] at the root is dropped, and
    the empty result is [.]. *)
Definition Clean (path : string) : string :=
  let out := strings.Join (cleanElems (rooted path) (strings.Split path Separator) []) "/" in
  if rooted path then "/" ++ out
  else if out =? "" then "." else out.

(** [filepath.Join]: the elements from the first non-empty one on,
    joined by the separator and cleaned; [""] when all are empty. *)
Definition Join (elem : list string) : string :=
  match strings.dropWhile (fun e => e =? "") elem with
  | [] => ""
  | elems => Clean (strings.Join elems "/")
  end.

(** The prefix of [path] that ends with its last separator. *)
Fixpoint uptoLastSep (path : string) : string :=
  match path with
  | EmptyString => ""
  | String c path' =>
      if strings.IndexByte path Separator then String c (uptoLastSep path') else ""
  end.

(** [filepath.Dir]: all but the last element of [path], cleaned. *)
Definition Dir (path : string) : string := Clean (uptoLastSep path).

(** [filepath.Glob]: the names matching [pattern], or the error of a
    malformed pattern; the matching is the host's. *)
Definition Glob (pattern : string) : Prog (error + list string) := CallGlob pattern Ret.
End filepath.

(** ** fmt *)

Module fmt.
(** An operand of a formatting call: a string or an error. *)
Inductive arg : Type :=
| Str (s : string)
| Err (e : error).

Definition show (a : arg) : string :=
  match a with
  | Str s => s
  | Err e => Error e
  end.

(** [fmt.Sprintf] for the verbs the program uses, [%s] and [%w]: each
    verb is replaced by the next operand. *)
Fixpoint Sprintf (format : string) (a : list arg) : string :=
  match format with
  | EmptyString => ""
  | String c rest =>
      if (c =? "%")%char then
        match rest with
        | String verb rest' =>
            match a with
            | x :: a' => show x ++ Sprintf rest' a'
            | [] => "%!" ++ String verb "(MISSING)" ++ Sprintf rest' []
            end
        | EmptyString => "%!(NOVERB)"
        end
      else String c (Sprintf rest a)
  end.

Fixpoint wrapped (a : list arg) : option error :=
  match a with
  | [] => None
  | Err e :: _ => Some e
  | Str _ :: a' => wrapped a'
  end.

(** [fmt.Errorf]: the formatted message; it wraps the error operand of
    [%w] when there is one. *)
Definition Errorf (format : string) (a : list arg) : error :=
  match wrapped a with
  | Some e => wrapError (Sprintf format a) e
  | None => errorString (Sprintf format a)
  end.
End fmt.

(** ** gittoolbox.go *)

Record PathTarget : Type := { Path : string; IncludeSubdirs : bool }.

(** The three results of [GetVersionMetadata]. *)
Definition Result : Type := string * string * option error.

(** [gitOutputIn] runs git with [args]; a non-empty [dir] is the
    directory git runs in. *)
Definition gitCmd (dir : string) (args : list string) : Cmd :=
  let cmd := exec.Command "git" args in
  if negb (dir =? "") then exec.setDir cmd dir else cmd.

Definition gitOutputIn (dir : string) (args : list string) : Prog (string * option error) :=
  '(out, err) <- exec.Run (gitCmd dir args) ;;
  Ret (strings.TrimSpace out, err).

Definition gitOutput (args : list string) : Prog (string * option error) :=
  gitOutputIn "" args.

(** Lines 50-56 and 80-87: the loop over the entries of the directory
    [dir], which skips the nested directories. *)
Definition rangeEntries (dir : string) (entries : list DirEntry) (resolved : list string)
  : list string :=
  fold_left
    (fun resolved e =>
       if de_IsDir e then resolved
       else
         let fp := filepath.Join [dir; de_Name e] in
         (resolved ++ [fp])%list)
    entries resolved.

(** Lines 37-60: the body of the loop over the matches of a glob. *)
Definition matchBody (t : PathTarget) (m : string) (resolved : list string)
  : Body Result (list string) :=
  st <- os.Stat m ;;
  match st with
  | inl err => Return ("", "", Some (fmt.Errorf "stat %s: %w" [fmt.Str m; fmt.Err err]))
  | inr info =>
      if fi_IsDir info then
        if IncludeSubdirs t then Next (resolved ++ [m])%list
        else
          rd <- os.ReadDir m ;;
          match rd with
          | inl err =>
              Return ("", "", Some (fmt.Errorf "read dir %s: %w" [fmt.Str m; fmt.Err err]))
          | inr entries => Next (rangeEntries m entries resolved)
          end
      else Next (resolved ++ [m])%list
  end.

(** Lines 25-92: the body of the loop over the targets. *)
Definition targetBody (t : PathTarget) (resolved : list string) : Body Result (list string) :=
  let p := filepath.Clean (Path t) in
  if strings.ContainsAny p "*?[" then
    g <- filepath.Glob p ;;
    match g with
    | inl err =>
        Return ("", "", Some (fmt.Errorf "invalid glob %s: %w" [fmt.Str p; fmt.Err err]))
    | inr matches =>
        if (List.length matches =? 0)%nat then
          Return ("", "", Some (fmt.Errorf "glob %s: no matches" [fmt.Str p]))
        else forRange matches (matchBody t) resolved
    end
  else
    st <- os.Stat p ;;
    match st with
    | inl err => Return ("", "", Some (fmt.Errorf "stat %s: %w" [fmt.Str p; fmt.Err err]))
    | inr info =>
        if fi_IsDir info then
          if IncludeSubdirs t then Next (resolved ++ [p])%list
          else
            rd <- os.ReadDir p ;;
            match rd with
            | inl err =>
                Return ("", "", Some (fmt.Errorf "read dir %s: %w" [fmt.Str p; fmt.Err err]))
            | inr entries => Next (rangeEntries p entries resolved)
            end
        else Next (resolved ++ [p])%list
    end.

(** Lines 24-93: the loop over the targets, entered with [resolved]. *)
Definition rangeTargets (targets : list PathTarget) (resolved : list string)
  : Body Result (list string) :=
  forRange targets targetBody resolved.

(** Lines 18-93: the targets, by default the current directory, resolved
    to the list of paths handed to git. *)
Definition resolveTargets (targets : list PathTarget) : Body Result (list string) :=
  let targets :=
    if (List.length targets =? 0)%nat then [{| Path := "."; IncludeSubdirs := false |}]
    else targets in
  rangeTargets targets [].

(** Lines 99-107: git runs in the directory of the first resolved path. *)
Definition chooseWorkDir (resolved : list string) : Prog string :=
  if (0 <? List.length resolved)%nat then
    let first := nth 0 resolved "" in
    st <- os.Stat first ;;
    match st with
    | inr info => if negb (fi_IsDir info) then Ret (filepath.Dir first) else Ret first
    | inl _ => Ret first
    end
  else Ret "".

(** Lines 133-138: the lines of [countStr] that are the latest date. *)
Definition countSameDate (countStr commitDateNoSuffix : string) : Z :=
  fold_left
    (fun count line =>
       if strings.TrimSpace line =? commitDateNoSuffix then int.add count 1 else count)
    (strings.Split countStr LF) 0%Z.

(** Lines 141-145. *)
Definition suffixOf (count : Z) : string :=
  if (1 <? count)%Z then string_of_rune (int32 (int.sub (int.add (byte "a") count) 1))
  else "".

(** Lines 147-152. *)
Definition commitDateOf (commitDateNoSuffix suffix : string) : string :=
  if (suffix =? "") || (suffix =? "a") then commitDateNoSuffix
  else fmt.Sprintf "%s-%s" [fmt.Str commitDateNoSuffix; fmt.Str suffix].

(** Lines 110-111, 118-119 and 126-127: the arguments of the three
    queries. *)
Definition baseArgsHash : list string := ["log"; "-n"; "1"; "--pretty=format:%h"; "--"].
Definition argsHash (resolved : list string) : list string :=
  (baseArgsHash ++ resolved)%list.

Definition baseArgsDate : list string :=
  ["log"; "-n"; "1"; "--date=format:%Y-%m-%d"; "--pretty=format:%cd"; "--"].
Definition argsDate (resolved : list string) : list string :=
  (baseArgsDate ++ resolved)%list.

Definition baseArgsCount : list string :=
  ["log"; "--date=format:%Y-%m-%d"; "--pretty=format:%cd"; "--"].
Definition argsCount (resolved : list string) : list string :=
  (baseArgsCount ++ resolved)%list.

(** Lines 95-154: the three queries and the date suffix. *)
Definition queryVersion (resolved : list string) : Body Result Result :=
  if (List.length resolved =? 0)%nat then
    Return ("", "", Some (fmt.Errorf "no files to inspect" []))
  else
    workDir <- chooseWorkDir resolved ;;
    '(commitHash, err) <- gitOutputIn workDir (argsHash resolved) ;;
    match err with
    | Some err => Return ("", "", Some (fmt.Errorf "git log hash: %w" [fmt.Err err]))
    | None =>
    '(commitDateNoSuffix, err) <- gitOutputIn workDir (argsDate resolved) ;;
    match err with
    | Some err => Return ("", "", Some (fmt.Errorf "git log date: %w" [fmt.Err err]))
    | None =>
    '(countStr, err) <- gitOutputIn workDir (argsCount resolved) ;;
    match err with
    | Some err => Return ("", "", Some (fmt.Errorf "git log count: %w" [fmt.Err err]))
    | None =>
    let count := countSameDate countStr commitDateNoSuffix in
    let suffix := suffixOf count in
    let commitDate := commitDateOf commitDateNoSuffix suffix in
    Return (commitDate, commitHash, None)
    end end end.

Definition GetVersionMetadata (targets : list PathTarget) : Prog Result :=
  returned (resolved <~ resolveTargets targets ;; queryVersion resolved).

Definition AssertBranchIsCleanAndSynced : Prog (option error) :=
  returned (
    '(branch, err) <- gitOutput ["rev-parse"; "--abbrev-ref"; "HEAD"] ;;
    match err with
    | Some err => Return (Some err)
    | None =>
    let branch := strings.TrimSpace branch in
    '(_, err) <- gitOutput ["fetch"; "origin"; branch; "--quiet"] ;;
    match err with
    | Some err => Return (Some err)
    | None =>
    '(status, err) <-
      gitOutput ["rev-list"; "--left-right"; "--count"; "origin/" ++ branch ++ "..." ++ branch] ;;
    match err with
    | Some err => Return (Some err)
    | None =>
    let parts := strings.Fields status in
    if negb (List.length parts =? 2)%nat then
      Return (Some (fmt.Errorf "unexpected output from git rev-list" []))
    else if negb (nth 0 parts "" =? "0") then
      Return (Some (fmt.Errorf "your branch is behind origin/%s" [fmt.Str branch]))
    else if negb (nth 1 parts "" =? "0") then
      Return (Some (fmt.Errorf "your branch is ahead of origin/%s" [fmt.Str branch]))
    else
    '(changes, err) <- gitOutput ["status"; "--porcelain"] ;;
    match err with
    | Some err => Return (Some err)
    | None =>
    if negb (strings.TrimSpace changes =? "") then
      Return (Some (fmt.Errorf "you have uncommitted changes" []))
    else Return None
    end end end end).

(** ** Hosts for the scenarios of gitutils_test.go *)

Module Scenario.
Fixpoint lookup {A : Type} (name : string) (table : list (string * A)) : option A :=
  match table with
  | [] => None
  | (n, a) :: table' => if n =? name then Some a else lookup name table'
  end.

Fixpoint argsEqb (a b : list string) : bool :=
  match a, b with
  | [], [] => true
  | x :: a', y :: b' => (x =? y) && argsEqb a' b'
  | _, _ => false
  end.

Fixpoint answerOf (cmd : Cmd) (table : list (string * list string * string))
  : string * option error :=
  match table with
  | [] => ("fatal: not a git repository", Some (errorString "exit status 128"))
  | (dir, args, out) :: table' =>
      if (dir =? cmd_Dir cmd) && argsEqb args (cmd_Args cmd) then (out, None)
      else answerOf cmd table'
  end.

Definition notExist (op name : string) : error :=
  errorString (op ++ " " ++ name ++ ": no such file or directory").

(** A host given by its files and directories ([paths], with the
    entries of each directory), the expansion of its glob patterns and
    the git invocations that succeed, with their output. *)
Definition host (paths : list (string * option (list DirEntry)))
    (globs : list (string * list string))
    (git : list (string * list string * string)) : World :=
  {| stat := fun name =>
       match lookup name paths with
       | Some (Some _) => inr {| fi_IsDir := true |}
       | Some None => inr {| fi_IsDir := false |}
       | None => inl (notExist "stat" name)
       end;
     readDir := fun name =>
       match lookup name paths with
       | Some (Some entries) => inr entries
       | _ => inl (notExist "open" name)
       end;
     glob := fun pattern =>
       match lookup pattern globs with
       | Some matches => inr matches
       | None => inr []
       end;
     runCmd := fun cmd => answerOf cmd git |}.

Definition file (name : string) : DirEntry := {| de_Name := name; de_IsDir := false |}.
Definition dir (name : string) : DirEntry := {| de_Name := name; de_IsDir := true |}.

(** The history of a path set: the short hash of its latest commit and
    the dates of its commits, newest first. *)
Definition history (workDir : string) (resolved : list string) (hash : string)
    (dates : list string) : list (string * list string * string) :=
  [ (workDir, argsHash resolved, hash);
    (workDir, argsDate resolved, nth 0 dates "");
    (workDir, argsCount resolved, strings.Join dates (String LF "")) ].

(** TestGetVersionMetadata_SingleFile: one commit to [a.txt]. *)
Definition singleFile : World :=
  host [("/td", Some [dir ".git"; file "a.txt"]); ("/td/a.txt", None)] []
    (history "/td" ["/td/a.txt"] "3f2a1bc" ["2025-09-10"]).

(** TestGetVersionMetadata_MultipleCommits_Suffix: two commits to
    [b.txt] on one day; and the same file after a third and a fourth. *)
Definition commitsOnOneDay (n : nat) : World :=
  host [("/td", Some [dir ".git"; file "b.txt"]); ("/td/b.txt", None)] []
    (history "/td" ["/td/b.txt"] "9c0de41" (repeat "2025-09-11" n)).

(** TestGetVersionMetadata_GlobAndDirIncludeSubdirs: [root.txt] and
    [sub/inner.txt]. *)
Definition nested : World :=
  host [("/td", Some [dir ".git"; file "root.txt"; dir "sub"]);
        ("/td/root.txt", None);
        ("/td/sub", Some [file "inner.txt"]);
        ("/td/sub/inner.txt", None)]
    [("/td/*.txt", ["/td/root.txt"]); ("/td/*", ["/td/root.txt"; "/td/sub"])]
    (history "/td" ["/td/root.txt"] "71aa0c2" ["2025-09-12"]
     ++ history "/td" ["/td"] "b5e9d03" ["2025-09-12"; "2025-09-12"])%list.

(** A directory whose name has a bracket, as [filepath.Glob] sees it:
    the pattern [d*] matches it, the pattern [d[x]] matches only a
    name [dx], which does not exist. *)
Definition bracketed : World :=
  host [("d[x]", Some [file "f.txt"]); ("d[x]/f.txt", None)]
    [("d*", ["d[x]"])] [].

(** The answers of git to the four commands of the sync check. *)
Definition syncHost (branch : string) (revList : string) (changes : string) : World :=
  host [] []
    [ ("", ["rev-parse"; "--abbrev-ref"; "HEAD"], branch ++ String LF "");
      ("", ["fetch"; "origin"; branch; "--quiet"], "");
      ("", ["rev-list"; "--left-right"; "--count"; "origin/" ++ branch ++ "..." ++ branch],
       revList);
      ("", ["status"; "--porcelain"], changes) ].
End Scenario.

(** ** Notions used in the statements *)

(** The lines of the date history that are the latest date: the count
    of section 4.2, as a natural number. *)
Definition sameDateLines (history date : string) : nat :=
  List.length (filter (fun line => strings.TrimSpace line =? date) (strings.Split history LF)).

(** [Queried w targets resolved commitHash date history]: in the world
    [w] the targets resolve to the non-empty list [resolved], and the
    three queries for it succeed and print [commitHash], [date] and
    [history]. *)
Record Queried (w : World) (targets : list PathTarget) (resolved : list string)
    (commitHash date history : string) : Prop := {
  q_resolved : eval w (resolveTargets targets) = inr resolved;
  q_nonempty : resolved <> [];
  q_hash : eval w (gitOutputIn (eval w (chooseWorkDir resolved)) (argsHash resolved))
           = (commitHash, None);
  q_date : eval w (gitOutputIn (eval w (chooseWorkDir resolved)) (argsDate resolved))
           = (date, None);
  q_history : eval w (gitOutputIn (eval w (chooseWorkDir resolved)) (argsCount resolved))
              = (history, None)
}.

(** The target that names the path [m] literally. *)
Definition literal (includeSubdirs : bool) (m : string) : PathTarget :=
  {| Path := m; IncludeSubdirs := includeSubdirs |}.

(** A failure of [GetVersionMetadata]: an error and two empty strings. *)
Definition failure (r : Result) : Prop := exists err, r = ("", "", Some err).

Definition isRun (op : Op) : bool :=
  match op with
  | RunOp _ => true
  | _ => false
  end.

(** A call that is not a subprocess. *)
Definition quiet (op : Op) : Prop := isRun op = false.

(** A result without an error, or a failure. *)
Definition wellFormed (r : Result) : Prop := snd r = None \/ failure r.

(** The state of a body of [GetVersionMetadata]: it runs on, or it has
    returned a failure. *)
Definition failureOrNext {A : Type} (x : Result + A) : Prop :=
  match x with
  | inl r => failure r
  | inr _ => True
  end.

(** The error of a glob that matches nothing (NoMatchError). *)
Definition errNoMatch (p : string) : error := errorString ("glob " ++ p ++ ": no matches").

(** *** What git prints *)

Fixpoint allb (f : ascii -> bool) (s : string) : bool :=
  match s with
  | EmptyString => true
  | String c s' => f c && allb f s'
  end.

Definition isDigit (c : ascii) : bool := ((byte "0" <=? byte c) && (byte c <=? byte "9"))%Z.
Definition isHexDigit (c : ascii) : bool :=
  isDigit c || ((byte "a" <=? byte c) && (byte c <=? byte "f"))%Z.

(** An abbreviated commit hash, the output of [--pretty=format:%h]. *)
Definition isAbbrevHash (s : string) : bool := negb (s =? "") && allb isHexDigit s.

(** A date YYYY-MM-DD, the output of [--date=format:%Y-%m-%d] with
    [--pretty=format:%cd]. *)
Definition isDate (s : string) : bool :=
  match s with
  | String y1 (String y2 (String y3 (String y4 (String h1
      (String m1 (String m2 (String h2 (String d1 (String d2 ""))))))))) =>
      allb isDigit (String y1 (String y2 (String y3 (String y4
        (String m1 (String m2 (String d1 (String d2 ""))))))))
      && (h1 =? "-")%char && (h2 =? "-")%char
  | _ => false
  end.

(** An ASCII character that is not white space. *)
Definition plain (c : ascii) : bool :=
  (byte c <? utf8.RuneSelf)%Z && negb (unicode.IsSpace (byte c)).

Fixpoint singles (s : string) : list (Z * string) :=
  match s with
  | EmptyString => []
  | String c s' => (byte c, String c "") :: singles s'
  end.

(** The date history of a path committed [n] times on 2025-09-11. *)
Definition oneDay (n : nat) : string := strings.Join (repeat "2025-09-11" n) (String LF "").

(** [Post calls Q p]: whatever the host answers, [p] makes only calls
    in [calls] and its value satisfies [Q]. *)
Inductive Post {A : Type} (calls : Op -> Prop) (Q : A -> Prop) : Prog A -> Prop :=
| Post_Ret a : Q a -> Post calls Q (Ret a)
| Post_Stat name k :
    calls (StatOp name) -> (forall x, Post calls Q (k x)) -> Post calls Q (CallStat name k)
| Post_ReadDir name k :
    calls (ReadDirOp name) -> (forall x, Post calls Q (k x)) -> Post calls Q (CallReadDir name k)
| Post_Glob pattern k :
    calls (GlobOp pattern) -> (forall x, Post calls Q (k x)) -> Post calls Q (CallGlob pattern k)
| Post_Run cmd k :
    calls (RunOp cmd) -> (forall x, Post calls Q (k x)) -> Post calls Q (CallRun cmd k).

(** *** The sync check as a list of checks

    Section 4.3 of the specification: the checks run in a fixed order
    and the first one that fails decides.  A check is the calls it makes
    and its verdict. *)
Definition SyncCheck : Type := list Op * option error.

Fixpoint firstFailure (checks : list SyncCheck) : option error * list Op :=
  match checks with
  | [] => (None, [])
  | (calls, Some err) :: _ => (Some err, calls)
  | (calls, None) :: checks' =>
      let '(r, tr) := firstFailure checks' in (r, (calls ++ tr)%list)
  end.

Definition argsRevParse : list string := ["rev-parse"; "--abbrev-ref"; "HEAD"].
Definition argsFetch (branch : string) : list string := ["fetch"; "origin"; branch; "--quiet"].
Definition argsRevList (branch : string) : list string :=
  ["rev-list"; "--left-right"; "--count"; "origin/" ++ branch ++ "..." ++ branch].
Definition argsStatus : list string := ["status"; "--porcelain"].

Definition gitOp (args : list string) : Op := RunOp (gitCmd "" args).

(** The name of the current branch, as the check reads it. *)
Definition branchIn (w : World) : string :=
  strings.TrimSpace (fst (eval w (gitOutput argsRevParse))).

(** The fields of the ahead/behind output. *)
Definition partsIn (w : World) : list string :=
  strings.Fields (fst (eval w (gitOutput (argsRevList (branchIn w))))).

(** The errors of the sync check, as lines 174, 177, 180 and 188 build
    them. *)
Definition errUnexpectedOutput : error := fmt.Errorf "unexpected output from git rev-list" [].
Definition errBehind (branch : string) : error :=
  fmt.Errorf "your branch is behind origin/%s" [fmt.Str branch].
Definition errAhead (branch : string) : error :=
  fmt.Errorf "your branch is ahead of origin/%s" [fmt.Str branch].
Definition errUncommitted : error := fmt.Errorf "you have uncommitted changes" [].

(** The query [args] of the sync check succeeds. *)
Definition succeeds (w : World) (args : list string) : Prop :=
  snd (eval w (gitOutput args)) = None.

Definition failsIf (b : bool) (err : error) : option error := if b then Some err else None.

(** Branch name, fetch, ahead/behind (the query, the number of fields,
    behind, ahead), working-tree status (the query, its output). *)
Definition syncChecks (w : World) : list SyncCheck :=
  let branch := branchIn w in
  let parts := partsIn w in
  [ ([gitOp argsRevParse], snd (eval w (gitOutput argsRevParse)));
    ([gitOp (argsFetch branch)], snd (eval w (gitOutput (argsFetch branch))));
    ([gitOp (argsRevList branch)], snd (eval w (gitOutput (argsRevList branch))));
    ([], failsIf (negb (List.length parts =? 2)%nat) errUnexpectedOutput);
    ([], failsIf (negb (nth 0 parts "" =? "0")) (errBehind branch));
    ([], failsIf (negb (nth 1 parts "" =? "0")) (errAhead branch));
    ([gitOp argsStatus], snd (eval w (gitOutput argsStatus)));
    ([], failsIf (negb (strings.TrimSpace (fst (eval w (gitOutput argsStatus))) =? ""))
           errUncommitted) ].

(** ** Notions used in the further properties *)

(** [errors.Unwrap]: the error an error wraps, if any. *)
Definition Unwrap (e : error) : option error :=
  match e with
  | wrapError _ err => Some err
  | errorString _ => None
  end.

(** The error of line 96. *)
Definition errNoFiles : error := fmt.Errorf "no files to inspect" [].

(** The directory git is run in for the list [resolved], as lines
    100-107 choose it. *)
Definition workDirIn (w : World) (resolved : list string) : string :=
  eval w (chooseWorkDir resolved).

(** The three queries of lines 110-131, in order. *)
Definition queryOps (workDir : string) (resolved : list string) : list Op :=
  [RunOp (gitCmd workDir (argsHash resolved));
   RunOp (gitCmd workDir (argsDate resolved));
   RunOp (gitCmd workDir (argsCount resolved))].

(** A call that is not a subprocess, or is a [git log] whose arguments
    are the options of one of the three queries followed by paths. *)
Definition logQuery (op : Op) : Prop :=
  match op with
  | RunOp cmd =>
      cmd_Name cmd = "git" /\
      exists base paths,
        In base [baseArgsHash; baseArgsDate; baseArgsCount] /\
        cmd_Args cmd = (base ++ paths)%list
  | _ => True
  end.

(** A string that is one lowercase letter. *)
Definition isLowerLetter (s : string) : Prop :=
  exists c, s = String c "" /\ (byte "a" <= byte c <= byte "z")%Z.

(** The outcome of a body entered with [acc], from its outcome when
    entered with the empty list. *)
Definition extend (acc : list string) (x : Result + list string) : Result + list string :=
  match x with
  | inl r => inl r
  | inr l => inr (acc ++ l)%list
  end.

(** *** Further hosts *)

Module Hosts.
(** A directory that holds only directories. *)
Definition onlySubdirs : World :=
  Scenario.host [("/td", Some [Scenario.dir ".git"; Scenario.dir "sub"]);
                 ("/td/sub", Some [Scenario.file "inner.txt"])] [] [].

(** The current directory of a small module: a file and a directory. *)
Definition currentDir : World :=
  Scenario.host [(".", Some [Scenario.dir "cmd"; Scenario.file "go.mod"]);
                 ("go.mod", None); ("cmd", Some [Scenario.file "main.go"])] []
    (Scenario.history "." ["go.mod"] "5d1c7aa" ["2025-09-13"]).

(** A directory that cannot be listed, and a pattern that is malformed. *)
Definition restricted : World :=
  {| stat := fun name =>
       if name =? "/locked" then inr {| fi_IsDir := true |}
       else inl (Scenario.notExist "stat" name);
     readDir := fun name => inl (errorString ("open " ++ name ++ ": permission denied"));
     glob := fun pattern =>
       if pattern =? "/td/[" then inl (errorString "syntax error in pattern") else inr [];
     runCmd := fun cmd => Scenario.answerOf cmd [] |}.

(** The file [a.txt] of the first test, when only the first [n] of the
    three queries succeed. *)
Definition queriesUpTo (n : nat) : World :=
  Scenario.host [("/td", Some [Scenario.dir ".git"; Scenario.file "a.txt"]); ("/td/a.txt", None)]
    [] (firstn n (Scenario.history "/td" ["/td/a.txt"] "3f2a1bc" ["2025-09-10"])).

(** A file that no commit touches: git prints nothing and succeeds. *)
Definition untracked : World :=
  Scenario.host [("/td", Some [Scenario.dir ".git"; Scenario.file "new.txt"]);
                 ("/td/new.txt", None)] []
    [("/td", argsHash ["/td/new.txt"], "");
     ("/td", argsDate ["/td/new.txt"], "");
     ("/td", argsCount ["/td/new.txt"], "")].

(** A file in a directory named relative to the caller's directory. *)
Definition relative : World :=
  Scenario.host [("sub", Some [Scenario.file "main.go"]); ("sub/main.go", None)] []
    (Scenario.history "sub" ["sub/main.go"] "0a1b2c3" ["2025-09-14"]).
End Hosts.

(** *** A repository, as [git log] reads it

    The hosts above answer git from a table.  The host below computes
    the answers of the three queries from the commits of a repository:
    git reads a path argument from the directory it runs in, and lists a
    commit when it touches that path or a path below it. *)

Module Git.
(** A commit: its abbreviated hash, the day of its committer date, and
    the paths it touches, named from the top of the work tree. *)
Record Commit : Type := { c_hash : string; c_day : string; c_paths : list string }.

(** The directory git runs in: [dir], taken from the directory of the
    process, which is the top of the work tree; the empty [dir] is that
    directory itself. *)
Definition cwd (top dir : string) : string :=
  if filepath.rooted dir then filepath.Clean dir else filepath.Join [top; dir].

(** The path a path argument stands for. *)
Definition fromCwd (top dir pathspec : string) : string :=
  if filepath.rooted pathspec then filepath.Clean pathspec
  else filepath.Join [cwd top dir; pathspec].

Definition below (spec path : string) : bool :=
  (spec =? path) || String.prefix (spec ++ "/") path.

(** Without path arguments every commit is listed. *)
Definition listed (top dir : string) (pathspecs : list string) (c : Commit) : bool :=
  (List.length pathspecs =? 0)%nat
  || existsb
       (fun spec =>
          existsb (fun path => below (fromCwd top dir spec) (filepath.Join [top; path]))
            (c_paths c))
       pathspecs.

(** The arguments that follow the options [base], if [args] begins
    with them. *)
Fixpoint after (base args : list string) : option (list string) :=
  match base, args with
  | [], _ => Some args
  | b :: base', a :: args' => if b =? a then after base' args' else None
  | _ :: _, [] => None
  end.

(** [--pretty=format:] separates the commits by a line feed and ends
    the output without one. *)
Definition lines (l : list string) : string := strings.Join l (String LF "").

(** [git log] for the options of the three queries; [commits] has the
    newest commit first. *)
Definition log (top : string) (commits : list Commit) (cmd : Cmd) : string * option error :=
  let found paths := filter (listed top (cmd_Dir cmd) paths) commits in
  match after baseArgsHash (cmd_Args cmd) with
  | Some paths => (lines (map c_hash (firstn 1 (found paths))), None)
  | None =>
  match after baseArgsDate (cmd_Args cmd) with
  | Some paths => (lines (map c_day (firstn 1 (found paths))), None)
  | None =>
  match after baseArgsCount (cmd_Args cmd) with
  | Some paths => (lines (map c_day (found paths)), None)
  | None => ("git: not one of the three queries", Some (errorString "exit status 129"))
  end end end.

(** A host whose process runs at the top [top] of a work tree with the
    history [commits]; [paths] names its files and directories, as the
    process may name them. *)
Definition host (paths : list (string * option (list DirEntry))) (top : string)
    (commits : list Commit) : World :=
  let files := Scenario.host paths [] [] in
  {| stat := stat files; readDir := readDir files; glob := glob files;
     runCmd := log top commits |}.

(** The work tree [/td] with the file [sub/main.go], committed once.
    The process runs in [/td]: the file is [sub/main.go] to it, and
    [/td/sub/main.go]. *)
Definition oneCommit : World :=
  host [ ("sub", Some [Scenario.file "main.go"]); ("sub/main.go", None);
         ("/td", Some [Scenario.dir ".git"; Scenario.dir "sub"]);
         ("/td/sub", Some [Scenario.file "main.go"]); ("/td/sub/main.go", None) ]
    "/td"
    [ {| c_hash := "0a1b2c3"; c_day := "2025-09-14"; c_paths := ["sub/main.go"] |} ].
End Git.

(** * Properties *)

(** ** Running a computation *)

Section Running.
Variable w : World.

Lemma run_bind {A B : Type} (m : Prog A) (f : A -> Prog B) :
  run w (bind m f) =
  (eval w (f (eval w m)), (trace w m ++ trace w (f (eval w m)))%list).
Proof.
  unfold eval, trace.
  induction m as [a | name k IH | name k IH | pattern k IH | cmd k IH]; simpl.
  - destruct (run w (f a)); reflexivity.
  - rewrite IH. destruct (run w (k (stat w name))); reflexivity.
  - rewrite IH. destruct (run w (k (readDir w name))); reflexivity.
  - rewrite IH. destruct (run w (k (glob w pattern))); reflexivity.
  - rewrite IH. destruct (run w (k (runCmd w cmd))); reflexivity.
Qed.

Lemma eval_bind {A B : Type} (m : Prog A) (f : A -> Prog B) :
  eval w (bind m f) = eval w (f (eval w m)).
Proof. unfold eval at 1. rewrite run_bind. reflexivity. Qed.

Lemma trace_bind {A B : Type} (m : Prog A) (f : A -> Prog B) :
  trace w (bind m f) = (trace w m ++ trace w (f (eval w m)))%list.
Proof. unfold trace at 1. rewrite run_bind. reflexivity. Qed.

Lemma eval_andThen {R A B : Type} (m : Body R A) (f : A -> Body R B) :
  eval w (andThen m f) =
  match eval w m with
  | inl r => inl r
  | inr a => eval w (f a)
  end.
Proof. unfold andThen. rewrite eval_bind. destruct (eval w m); reflexivity. Qed.

Lemma trace_andThen {R A B : Type} (m : Body R A) (f : A -> Body R B) :
  trace w (andThen m f) =
  (trace w m ++ match eval w m with
                | inl _ => []
                | inr a => trace w (f a)
                end)%list.
Proof. unfold andThen. rewrite trace_bind. destruct (eval w m); reflexivity. Qed.

Lemma eval_returned {R : Type} (m : Body R R) :
  eval w (returned m) = match eval w m with inl r => r | inr r => r end.
Proof. unfold returned. rewrite eval_bind. destruct (eval w m); reflexivity. Qed.

Lemma trace_returned {R : Type} (m : Body R R) : trace w (returned m) = trace w m.
Proof.
  unfold returned. rewrite trace_bind.
  destruct (eval w m); simpl; apply app_nil_r.
Qed.

Lemma eval_forRange_app {R A S : Type} (xs ys : list A) (body : A -> S -> Body R S) (s : S) :
  eval w (forRange (xs ++ ys)%list body s) =
  match eval w (forRange xs body s) with
  | inl r => inl r
  | inr s' => eval w (forRange ys body s')
  end.
Proof.
  revert s. induction xs as [| x xs IH]; intros s; simpl.
  - reflexivity.
  - rewrite !eval_andThen. destruct (eval w (body x s)); [reflexivity | apply IH].
Qed.

Lemma eval_forRange_one {R A S : Type} (x : A) (body : A -> S -> Body R S) (s : S) :
  eval w (forRange [x] body s) = eval w (body x s).
Proof. simpl. rewrite eval_andThen. destruct (eval w (body x s)); reflexivity. Qed.

Lemma Post_run {A : Type} (calls : Op -> Prop) (Q : A -> Prop) (p : Prog A) :
  Post calls Q p -> Q (eval w p) /\ Forall calls (trace w p).
Proof.
  unfold eval, trace.
  induction 1 as [a HQ | name k Hc _ IH | name k Hc _ IH | pattern k Hc _ IH | cmd k Hc _ IH];
    simpl.
  - split; [assumption | constructor].
  - destruct (IH (stat w name)) as [Hq Ht].
    destruct (run w (k (stat w name))); simpl in *. split; [| constructor]; assumption.
  - destruct (IH (readDir w name)) as [Hq Ht].
    destruct (run w (k (readDir w name))); simpl in *. split; [| constructor]; assumption.
  - destruct (IH (glob w pattern)) as [Hq Ht].
    destruct (run w (k (glob w pattern))); simpl in *. split; [| constructor]; assumption.
  - destruct (IH (runCmd w cmd)) as [Hq Ht].
    destruct (run w (k (runCmd w cmd))); simpl in *. split; [| constructor]; assumption.
Qed.
End Running.

Lemma Post_bind {A B : Type} (calls : Op -> Prop) (Q1 : A -> Prop) (Q : B -> Prop)
    (m : Prog A) (f : A -> Prog B) :
  Post calls Q1 m -> (forall a, Q1 a -> Post calls Q (f a)) -> Post calls Q (bind m f).
Proof.
  intros Hm Hf. induction Hm; simpl; [auto | constructor; auto ..].
Qed.

Lemma Post_andThen {R A B : Type} (calls : Op -> Prop) (QR : R -> Prop) (QA : A -> Prop)
    (QB : B -> Prop) (m : Body R A) (f : A -> Body R B) :
  Post calls (fun x => match x with inl r => QR r | inr a => QA a end) m ->
  (forall a, QA a -> Post calls (fun x => match x with inl r => QR r | inr b => QB b end) (f a)) ->
  Post calls (fun x => match x with inl r => QR r | inr b => QB b end) (andThen m f).
Proof.
  intros Hm Hf. unfold andThen. eapply Post_bind; [exact Hm |].
  intros [r | a] Hx; [constructor; exact Hx | apply Hf; exact Hx].
Qed.

Lemma Post_forRange {R A S : Type} (calls : Op -> Prop) (QR : R -> Prop)
    (xs : list A) (body : A -> S -> Body R S) :
  (forall x s, Post calls (fun y => match y with inl r => QR r | inr _ => True end) (body x s)) ->
  forall s, Post calls (fun y => match y with inl r => QR r | inr _ => True end)
              (forRange xs body s).
Proof.
  intros Hbody. induction xs as [| x xs IH]; intros s; simpl.
  - constructor. exact I.
  - eapply Post_andThen with (QA := fun _ => True); [apply Hbody | intros; apply IH].
Qed.

Lemma Post_weaken {A : Type} (calls calls' : Op -> Prop) (Q Q' : A -> Prop) (p : Prog A) :
  (forall op, calls op -> calls' op) -> (forall a, Q a -> Q' a) ->
  Post calls Q p -> Post calls' Q' p.
Proof.
  intros Hc HQ. induction 1; constructor; auto.
Qed.

(** One step of a proof that a program text satisfies [Post]. *)
Ltac post_step :=
  match goal with
  | |- Post _ _ (Ret _) => constructor
  | |- Post _ _ (Return _) => constructor
  | |- Post _ _ (Next _) => constructor
  | |- Post _ _ (CallStat _ _) => constructor; [try reflexivity; try exact I | intros [? | ?]]
  | |- Post _ _ (CallReadDir _ _) => constructor; [try reflexivity; try exact I | intros [? | ?]]
  | |- Post _ _ (CallGlob _ _) => constructor; [try reflexivity; try exact I | intros [? | ?]]
  | |- Post _ _ (CallRun _ _) => constructor; [try reflexivity; try exact I | intros [? [? |]]]
  | |- Post _ _ (if ?b then _ else _) => destruct b
  | |- Post _ _ (bind (if ?b then _ else _) _) => destruct b
  | |- failure _ => eexists; reflexivity
  | |- True => exact I
  end.

Ltac post := repeat (simpl; post_step).

(** ** The tests of the repository

    The scenarios of gitutils_test.go, run on the embedding. *)

Example TestGetVersionMetadata_SingleFile :
  eval Scenario.singleFile
    (GetVersionMetadata [{| Path := filepath.Join ["/td"; "a.txt"]; IncludeSubdirs := false |}])
  = ("2025-09-10", "3f2a1bc", None).
Proof. vm_compute. reflexivity. Qed.

Example TestGetVersionMetadata_MultipleCommits_Suffix :
  eval (Scenario.commitsOnOneDay 2)
    (GetVersionMetadata [{| Path := filepath.Join ["/td"; "b.txt"]; IncludeSubdirs := false |}])
  = ("2025-09-11-b", "9c0de41", None).
Proof. vm_compute. reflexivity. Qed.

Example TestGetVersionMetadata_GlobAndDirIncludeSubdirs :
  eval Scenario.nested
    (GetVersionMetadata [{| Path := filepath.Join ["/td"; "*.txt"]; IncludeSubdirs := false |}])
  = ("2025-09-12", "71aa0c2", None) /\
  eval Scenario.nested (GetVersionMetadata [{| Path := "/td"; IncludeSubdirs := true |}])
  = ("2025-09-12-b", "b5e9d03", None).
Proof. split; vm_compute; reflexivity. Qed.

Example TestGetVersionMetadata_NoMatchesGlob :
  run Scenario.nested
    (GetVersionMetadata
       [{| Path := filepath.Join ["/td"; "no-such-*.txt"]; IncludeSubdirs := false |}])
  = (("", "", Some (errNoMatch "/td/no-such-*.txt")), [GlobOp "/td/no-such-*.txt"]).
Proof. vm_compute. reflexivity. Qed.

(** ** No partial results *)

Lemma matchBody_post t m resolved : Post quiet failureOrNext (matchBody t m resolved).
Proof. unfold matchBody, os.Stat, os.ReadDir, quiet, failureOrNext. post. Qed.

Lemma targetBody_post t resolved : Post quiet failureOrNext (targetBody t resolved).
Proof.
  unfold targetBody, filepath.Glob, os.Stat, os.ReadDir.
  destruct (strings.ContainsAny (filepath.Clean (Path t)) "*?[").
  - simpl. constructor; [reflexivity |]. intros [err | matches].
    + constructor. eexists; reflexivity.
    + destruct (List.length matches =? 0)%nat.
      * constructor. eexists; reflexivity.
      * apply Post_forRange. intros. apply matchBody_post.
  - unfold quiet, failureOrNext. post.
Qed.

Lemma rangeTargets_post targets resolved :
  Post quiet failureOrNext (rangeTargets targets resolved).
Proof. apply Post_forRange. intros. apply targetBody_post. Qed.

Lemma resolveTargets_post targets : Post quiet failureOrNext (resolveTargets targets).
Proof. apply rangeTargets_post. Qed.

Lemma queryVersion_post resolved :
  Post (fun _ => True) (fun x => match x with inl r => wellFormed r | inr r => wellFormed r end)
    (queryVersion resolved).
Proof.
  unfold queryVersion, chooseWorkDir, gitOutputIn, exec.Run, os.Stat, wellFormed.
  destruct (List.length resolved =? 0)%nat.
  - constructor. right. eexists; reflexivity.
  - destruct (0 <? List.length resolved)%nat; post;
      solve [right; eexists; reflexivity | left; reflexivity].
Qed.

Lemma GetVersionMetadata_post targets :
  Post (fun _ => True) wellFormed (GetVersionMetadata targets).
Proof.
  unfold GetVersionMetadata, returned.
  eapply Post_bind.
  - eapply (Post_andThen (fun _ => True) wellFormed (fun _ => True) wellFormed).
    + eapply Post_weaken; [| | apply resolveTargets_post]; [intros; exact I |].
      intros [r | l] H; [right; exact H | exact I].
    + intros a _. apply queryVersion_post.
  - intros [r | r] H; constructor; exact H.
Qed.

(** Claim C9.  Whenever [GetVersionMetadata] returns an error, whichever
    of its [return] statements produced it and whatever the host
    answered, the commit date and the commit hash it returns are both
    the empty string. *)
Theorem error_means_empty_metadata :
  forall (w : World) (targets : list PathTarget) (commitDate commitHash : string) (err : error),
    eval w (GetVersionMetadata targets) = (commitDate, commitHash, Some err) ->
    commitDate = "" /\ commitHash = "".
Proof.
  intros w targets commitDate commitHash err Hrun.
  destruct (Post_run w _ _ _ (GetVersionMetadata_post targets)) as [Hwf _].
  rewrite Hrun in Hwf. destruct Hwf as [Hnil | [err' Hfail]].
  - discriminate Hnil.
  - inversion Hfail. split; reflexivity.
Qed.

Lemma error_means_empty_metadata_witness :
  eval Scenario.nested
    (GetVersionMetadata [{| Path := "/td/no-such-*.txt"; IncludeSubdirs := false |}])
  = ("", "", Some (errorString "glob /td/no-such-*.txt: no matches"))
  /\ ("" = "" /\ "" = "").
Proof.
  split; [vm_compute; reflexivity |].
  apply (error_means_empty_metadata Scenario.nested
           [{| Path := "/td/no-such-*.txt"; IncludeSubdirs := false |}]
           "" "" (errorString "glob /td/no-such-*.txt: no matches")).
  vm_compute; reflexivity.
Defined.

(** ** The two halves of GetVersionMetadata *)

Lemma GetVersionMetadata_unresolved w targets r :
  eval w (resolveTargets targets) = inl r ->
  eval w (GetVersionMetadata targets) = r /\
  trace w (GetVersionMetadata targets) = trace w (resolveTargets targets).
Proof.
  intros Hres. unfold GetVersionMetadata.
  rewrite eval_returned, trace_returned, eval_andThen, trace_andThen, Hres.
  split; [reflexivity | apply app_nil_r].
Qed.

Lemma GetVersionMetadata_resolved w targets resolved :
  eval w (resolveTargets targets) = inr resolved ->
  eval w (GetVersionMetadata targets) =
  match eval w (queryVersion resolved) with inl r => r | inr r => r end.
Proof.
  intros Hres. unfold GetVersionMetadata.
  rewrite eval_returned, eval_andThen, Hres. reflexivity.
Qed.

Lemma resolveTargets_nonempty targets :
  targets <> [] -> resolveTargets targets = rangeTargets targets [].
Proof. destruct targets; [congruence | reflexivity]. Qed.

(** ** Globs without matches *)

Lemma targetBody_no_match w t resolved :
  strings.ContainsAny (filepath.Clean (Path t)) "*?[" = true ->
  glob w (filepath.Clean (Path t)) = inr [] ->
  run w (targetBody t resolved) =
  (inl ("", "", Some (errNoMatch (filepath.Clean (Path t)))), [GlobOp (filepath.Clean (Path t))]).
Proof.
  intros Hmeta Hglob. unfold targetBody. rewrite Hmeta. simpl. rewrite Hglob. reflexivity.
Qed.

(** Claim C8.  Let [t] be a target whose cleaned path [p] contains one
    of the characters of a glob and whose expansion yields no match.
    Then [GetVersionMetadata] fails and runs no git command at all; and
    when the loop reaches [t], that is when the targets before it
    resolve, the failure is the no-match error of [p]. *)
Theorem glob_without_matches_fails :
  forall (w : World) (before after : list PathTarget) (t : PathTarget),
    let p := filepath.Clean (Path t) in
    let targets := (before ++ t :: after)%list in
    strings.ContainsAny p "*?[" = true ->
    glob w p = inr [] ->
    failure (eval w (GetVersionMetadata targets)) /\
    Forall (fun op => isRun op = false) (trace w (GetVersionMetadata targets)) /\
    (forall resolved,
        eval w (rangeTargets before []) = inr resolved ->
        eval w (GetVersionMetadata targets) = ("", "", Some (errNoMatch p))).
Proof.
  intros w before after t p targets Hmeta Hglob.
  assert (Hne : targets <> []) by (unfold targets; destruct before; discriminate).
  assert (Hstep : forall resolved,
             eval w (rangeTargets (t :: after) resolved) = inl ("", "", Some (errNoMatch p))).
  { intros resolved. unfold rangeTargets. simpl. rewrite eval_andThen.
    unfold eval at 1. rewrite (targetBody_no_match w t resolved Hmeta Hglob). reflexivity. }
  assert (Hloop : eval w (resolveTargets targets) =
                  match eval w (rangeTargets before []) with
                  | inl r => inl r
                  | inr resolved => inl ("", "", Some (errNoMatch p))
                  end).
  { rewrite (resolveTargets_nonempty targets Hne). unfold targets, rangeTargets.
    rewrite eval_forRange_app.
    destruct (eval w (forRange before targetBody [])) as [r | resolved]; [reflexivity |].
    apply (Hstep resolved). }
  destruct (Post_run w _ _ _ (rangeTargets_post before [])) as [Hbefore _].
  destruct (Post_run w _ _ _ (resolveTargets_post targets)) as [_ Hquiet].
  destruct (eval w (rangeTargets before [])) as [r | resolved] eqn:Ebefore.
  - destruct (GetVersionMetadata_unresolved w targets r Hloop) as [Hval Htr].
    rewrite Hval, Htr. repeat split; [exact Hbefore | exact Hquiet | discriminate].
  - destruct (GetVersionMetadata_unresolved w targets _ Hloop) as [Hval Htr].
    rewrite Hval, Htr. repeat split; [eexists; reflexivity | exact Hquiet].
Qed.

Lemma glob_without_matches_fails_witness :
  let t := {| Path := "/td/no-such-*.txt"; IncludeSubdirs := false |} in
  strings.ContainsAny (filepath.Clean (Path t)) "*?[" = true /\
  glob Scenario.nested (filepath.Clean (Path t)) = inr [] /\
  eval Scenario.nested (rangeTargets [] []) = inr [] /\
  eval Scenario.nested (GetVersionMetadata [t])
  = ("", "", Some (errNoMatch "/td/no-such-*.txt")).
Proof.
  intros t.
  assert (Hmeta : strings.ContainsAny (filepath.Clean (Path t)) "*?[" = true)
    by (vm_compute; reflexivity).
  assert (Hglob : glob Scenario.nested (filepath.Clean (Path t)) = inr [])
    by (vm_compute; reflexivity).
  split; [exact Hmeta |]. split; [exact Hglob |]. split; [reflexivity |].
  exact (proj2 (proj2 (glob_without_matches_fails Scenario.nested [] [] t Hmeta Hglob))
           [] eq_refl).
Defined.

(** ** Directories *)

Lemma rangeEntries_spec dir entries resolved :
  rangeEntries dir entries resolved =
  (resolved ++ map (fun e => filepath.Join [dir; de_Name e])
                 (filter (fun e => negb (de_IsDir e)) entries))%list.
Proof.
  unfold rangeEntries. revert resolved.
  induction entries as [| e entries IH]; intros resolved; simpl.
  - symmetry. apply app_nil_r.
  - destruct (de_IsDir e); simpl.
    + apply IH.
    + rewrite IH, <- app_assoc. reflexivity.
Qed.


(** The loop over the matches of a glob (lines 42-57) treats a match
    that is a directory in the same way. *)
Lemma directory_match_resolution w t m resolved :
  stat w m = inr {| fi_IsDir := true |} ->
  (IncludeSubdirs t = true ->
   run w (matchBody t m resolved) = (inr (resolved ++ [m])%list, [StatOp m])) /\
  (IncludeSubdirs t = false ->
   forall entries,
     readDir w m = inr entries ->
     run w (matchBody t m resolved) =
     (inr (resolved ++ map (fun e => filepath.Join [m; de_Name e])
                        (filter (fun e => negb (de_IsDir e)) entries))%list,
      [StatOp m; ReadDirOp m])).
Proof.
  intros Hstat. unfold matchBody. split.
  - intros Hflag. simpl. rewrite Hstat, Hflag. reflexivity.
  - intros Hflag entries Hread. simpl. rewrite Hstat, Hflag. simpl.
    rewrite Hread. simpl. rewrite rangeEntries_spec. reflexivity.
Qed.



(** ** Globs and the paths they match *)

(** A match that is a cleaned path without glob characters is handled
    by the loop over the matches as the loop over the targets handles
    it when it is named literally. *)
Lemma literal_like_match t m resolved :
  strings.ContainsAny m "*?[" = false ->
  filepath.Clean m = m ->
  targetBody (literal (IncludeSubdirs t) m) resolved = matchBody t m resolved.
Proof.
  intros Hmeta Hclean. unfold targetBody, matchBody, literal. simpl.
  rewrite Hclean, Hmeta. reflexivity.
Qed.

Lemma literals_like_matches w t matches :
  Forall (fun m => strings.ContainsAny m "*?[" = false /\ filepath.Clean m = m) matches ->
  forall resolved,
    eval w (forRange (map (literal (IncludeSubdirs t)) matches) targetBody resolved) =
    eval w (forRange matches (matchBody t) resolved).
Proof.
  induction 1 as [| m matches [Hmeta Hclean] _ IH]; intros resolved; simpl.
  - reflexivity.
  - rewrite !eval_andThen, (literal_like_match t m resolved Hmeta Hclean).
    destruct (eval w (matchBody t m resolved)); [reflexivity | apply IH].
Qed.

Lemma glob_target_expands w t matches resolved :
  strings.ContainsAny (filepath.Clean (Path t)) "*?[" = true ->
  glob w (filepath.Clean (Path t)) = inr matches ->
  matches <> [] ->
  eval w (targetBody t resolved) = eval w (forRange matches (matchBody t) resolved).
Proof.
  intros Hmeta Hglob Hne. unfold targetBody. rewrite Hmeta, eval_bind.
  change (eval w (filepath.Glob (filepath.Clean (Path t))))
    with (glob w (filepath.Clean (Path t))).
  rewrite Hglob. destruct matches as [| m matches]; [congruence | reflexivity].
Qed.

(** Claim C7 as amended.  Let [t] be a glob target that expands to one
    or more matches, each of them a cleaned path without glob
    characters.  In any list of targets, replacing [t] by the targets
    that name its matches literally, with the flag of [t], changes
    neither the outcome of the resolution (the resolved list, or the
    failure) nor the result of [GetVersionMetadata]. *)
Theorem glob_resolves_like_its_matches :
  forall (w : World) (before after : list PathTarget) (t : PathTarget) (matches : list string),
    let p := filepath.Clean (Path t) in
    let literally := (before ++ map (literal (IncludeSubdirs t)) matches ++ after)%list in
    strings.ContainsAny p "*?[" = true ->
    glob w p = inr matches ->
    matches <> [] ->
    Forall (fun m => strings.ContainsAny m "*?[" = false /\ filepath.Clean m = m) matches ->
    eval w (resolveTargets (before ++ t :: after)) = eval w (resolveTargets literally) /\
    eval w (GetVersionMetadata (before ++ t :: after)) = eval w (GetVersionMetadata literally).
Proof.
  intros w before after t matches p literally Hmeta Hglob Hne Hplain.
  assert (Hres : eval w (resolveTargets (before ++ t :: after)) =
                 eval w (resolveTargets literally)).
  { rewrite !resolveTargets_nonempty.
    - unfold literally, rangeTargets.
      change (t :: after) with ([t] ++ after)%list.
      rewrite !eval_forRange_app.
      destruct (eval w (forRange before targetBody [])) as [r | resolved]; [reflexivity |].
      rewrite !eval_forRange_app, eval_forRange_one,
        (literals_like_matches w t matches Hplain),
        (glob_target_expands w t matches resolved Hmeta Hglob Hne).
      reflexivity.
    - unfold literally. destruct before; [| discriminate].
      destruct matches; [congruence | discriminate].
    - destruct before; discriminate. }
  split; [exact Hres |].
  unfold GetVersionMetadata. rewrite !eval_returned, !eval_andThen, Hres. reflexivity.
Qed.

Lemma glob_resolves_like_its_matches_witness :
  let t := {| Path := "/td/*"; IncludeSubdirs := false |} in
  let literally := [literal false "/td/root.txt"; literal false "/td/sub"] in
  eval Scenario.nested (resolveTargets [t]) = eval Scenario.nested (resolveTargets literally) /\
  eval Scenario.nested (GetVersionMetadata [t]) =
  eval Scenario.nested (GetVersionMetadata literally).
Proof.
  intros t literally.
  apply (glob_resolves_like_its_matches Scenario.nested [] [] t ["/td/root.txt"; "/td/sub"]).
  - vm_compute; reflexivity.
  - vm_compute; reflexivity.
  - discriminate.
  - repeat constructor.
Defined.

(** Claim C7 as stated fails: a glob may match a path that itself
    contains a glob character.  The pattern [d*] matches the directory
    [d[x]] and resolves to it; the target that names [d[x]] literally is
    expanded again, matches nothing and fails. *)
Lemma glob_match_with_bracket_counterexample :
  let t := {| Path := "d*"; IncludeSubdirs := true |} in
  strings.ContainsAny (filepath.Clean (Path t)) "*?[" = true /\
  glob Scenario.bracketed (filepath.Clean (Path t)) = inr ["d[x]"] /\
  eval Scenario.bracketed (resolveTargets [t]) = inr ["d[x]"] /\
  eval Scenario.bracketed (resolveTargets [literal true "d[x]"]) =
  inl ("", "", Some (errNoMatch "d[x]")) /\
  eval Scenario.bracketed (resolveTargets [t]) <>
  eval Scenario.bracketed (resolveTargets (map (literal (IncludeSubdirs t)) ["d[x]"])).
Proof.
  intros t. repeat (split; [vm_compute; reflexivity |]).
  vm_compute. discriminate.
Qed.

(** ** Machine integers and runes *)

Lemma wrap_small bits x :
  (0 < bits)%Z -> (- 2 ^ (bits - 1) <= x < 2 ^ (bits - 1))%Z -> int.wrap bits x = x.
Proof.
  intros Hbits Hx. unfold int.wrap.
  assert (Hpow : (2 ^ bits = 2 * 2 ^ (bits - 1))%Z).
  { replace bits with (Z.succ (bits - 1)) at 1 by lia. apply Z.pow_succ_r. lia. }
  rewrite Z.mod_small; lia.
Qed.

Lemma wrap64_small x :
  (- 9223372036854775808 <= x < 9223372036854775808)%Z -> int.wrap 64 x = x.
Proof. intros Hx. apply wrap_small; [lia | exact Hx]. Qed.

Lemma wrap32_small x : (- 2147483648 <= x < 2147483648)%Z -> int.wrap 32 x = x.
Proof. intros Hx. apply wrap_small; [lia | exact Hx]. Qed.

Lemma wrap_add_wrap bits x y :
  (0 < bits)%Z -> int.wrap bits (int.wrap bits x + y) = int.wrap bits (x + y).
Proof.
  intros Hbits. unfold int.wrap. f_equal.
  replace ((x + 2 ^ (bits - 1)) mod 2 ^ bits - 2 ^ (bits - 1) + y + 2 ^ (bits - 1))%Z
    with ((x + 2 ^ (bits - 1)) mod 2 ^ bits + y)%Z by lia.
  rewrite Zplus_mod_idemp_l. f_equal. lia.
Qed.

Lemma countSameDate_from lines date c :
  fold_left
    (fun count line =>
       if strings.TrimSpace line =? date then int.add count 1 else count)
    lines (int.wrap 64 c) =
  int.wrap 64
    (c + Z.of_nat (List.length (filter (fun line => strings.TrimSpace line =? date) lines))).
Proof.
  revert c. induction lines as [| line lines IH]; intros c; simpl.
  - f_equal. lia.
  - destruct (strings.TrimSpace line =? date); simpl List.length.
    + unfold int.add at 2. rewrite wrap_add_wrap by lia. rewrite IH. f_equal. lia.
    + apply IH.
Qed.

(** The loop of lines 133-138 counts the lines that are the date, in
    64-bit arithmetic. *)
Lemma countSameDate_spec history date :
  countSameDate history date = int.wrap 64 (Z.of_nat (sameDateLines history date)).
Proof.
  unfold countSameDate, sameDateLines.
  change 0%Z with (int.wrap 64 0) at 1. apply countSameDate_from.
Qed.

Lemma countSameDate_small history date :
  (Z.of_nat (sameDateLines history date) < 2 ^ 63)%Z ->
  countSameDate history date = Z.of_nat (sameDateLines history date).
Proof.
  intros Hn. rewrite countSameDate_spec. apply wrap64_small.
  change (2 ^ 63)%Z with 9223372036854775808%Z in Hn. lia.
Qed.

Lemma byte_ofByte b : (0 <= b < 256)%Z -> byte (ofByte b) = b.
Proof.
  intros Hb. unfold byte, ofByte. rewrite N_ascii_embedding.
  - apply Z2N.id. lia.
  - change 256%N with (Z.to_N 256). apply Z2N.inj_lt; lia.
Qed.

Lemma append_empty_r s : s ++ "" = s.
Proof. induction s as [| c s IH]; simpl; [reflexivity | rewrite IH; reflexivity]. Qed.

(** The rune of the suffix for a count the program can meet. *)
Lemma suffixOf_rune count :
  (2 <= count < 2 ^ 63 - 97)%Z ->
  suffixOf count = string_of_rune (int32 (byte "a" + count - 1)).
Proof.
  intros Hc. unfold suffixOf.
  destruct (1 <? count)%Z eqn:E; [| apply Z.ltb_ge in E; lia].
  unfold int.add, int.sub. change (byte "a") with 97%Z in *.
  change (2 ^ 63)%Z with 9223372036854775808%Z in Hc.
  rewrite (wrap64_small (97 + count)) by lia.
  rewrite (wrap64_small (97 + count - 1)) by lia.
  reflexivity.
Qed.

Lemma encode_ascii r :
  (0 <= r <= 127)%Z -> utf8.encode r = String (ofByte r) "".
Proof.
  intros Hr. unfold utf8.encode.
  replace ((0 <=? r) && (r <=? 0x10FFFF) && negb ((0xD800 <=? r) && (r <=? 0xDFFF)))%Z
    with true.
  - destruct (r <=? 0x7F)%Z eqn:E; [reflexivity | apply Z.leb_gt in E; lia].
  - symmetry. rewrite !andb_true_iff, negb_true_iff, andb_false_iff.
    rewrite !Z.leb_le, Z.leb_gt. lia.
Qed.

Lemma encode_not_empty r : utf8.encode r <> "".
Proof.
  unfold utf8.encode.
  repeat match goal with |- context [if ?b then _ else _] => destruct b end; discriminate.
Qed.

Lemma encode_not_a r : r <> 97%Z -> utf8.encode r <> "a".
Proof.
  intros Hr. destruct (Z.leb_spec 0 r) as [Hlo |]; [destruct (Z.leb_spec r 127) as [Hhi |] |].
  - rewrite encode_ascii by lia. intros H. apply Hr.
    rewrite <- (byte_ofByte r) by lia. injection H as H. rewrite H. reflexivity.
  - unfold utf8.encode.
    repeat match goal with |- context [if ?b then _ else _] => destruct b eqn:? end;
      try discriminate.
    all: match goal with H : (_ <=? 127)%Z = true |- _ => apply Z.leb_le in H end.
    all: try lia.
    all: intros [=].
  - unfold utf8.encode.
    replace ((0 <=? r) && (r <=? 0x10FFFF) && negb ((0xD800 <=? r) && (r <=? 0xDFFF)))%Z
      with false; [vm_compute; discriminate |].
    symmetry. destruct (Z.leb_spec 0 r); [lia | reflexivity].
Qed.

Lemma rune_not_a count :
  (2 <= count <= 2 ^ 32)%Z -> int32 (byte "a" + count - 1) <> 97%Z.
Proof.
  intros Hc. unfold int32, int.wrap. change (byte "a") with 97%Z.
  change (2 ^ (32 - 1))%Z with 2147483648%Z.
  change (2 ^ 32)%Z with 4294967296%Z in *.
  intros H.
  pose proof (Z.mod_pos_bound (97 + count - 1 + 2147483648) 4294967296 eq_refl) as Hr.
  pose proof (Z.div_mod (97 + count - 1 + 2147483648) 4294967296) as Hq.
  lia.
Qed.

Lemma rune_letter count :
  (2 <= count <= 26)%Z -> int32 (byte "a" + count - 1) = (byte "a" + (count - 1))%Z.
Proof.
  intros Hc. unfold int32. change (byte "a") with 97%Z.
  rewrite wrap32_small by lia. lia.
Qed.

(** ** The date suffix *)

Lemma commitDateOf_suffixed date suffix :
  suffix <> "" -> suffix <> "a" -> commitDateOf date suffix = date ++ "-" ++ suffix.
Proof.
  intros Hempty Ha. unfold commitDateOf.
  apply String.eqb_neq in Hempty, Ha. rewrite Hempty, Ha. simpl.
  rewrite !append_empty_r. reflexivity.
Qed.

(** When the resolution and the three queries succeed, the result is the
    date with the suffix of the count, the hash and no error. *)
Lemma GetVersionMetadata_queried w targets resolved commitHash date history :
  Queried w targets resolved commitHash date history ->
  eval w (GetVersionMetadata targets) =
  (commitDateOf date (suffixOf (countSameDate history date)), commitHash, None).
Proof.
  intros [Hres Hne Hhash Hdate Hhist].
  rewrite (GetVersionMetadata_resolved w targets resolved Hres).
  unfold queryVersion.
  destruct resolved as [| first rest]; [congruence |].
  change (List.length (first :: rest) =? 0)%nat with false. cbv iota.
  rewrite eval_bind, eval_bind, Hhash. cbv iota beta.
  rewrite eval_bind, Hdate. cbv iota beta.
  rewrite eval_bind, Hhist. reflexivity.
Qed.

Lemma suffixOf_below_two count : (count <= 1)%Z -> suffixOf count = "".
Proof.
  intros Hc. unfold suffixOf.
  destruct (1 <? count)%Z eqn:E; [apply Z.ltb_lt in E; lia | reflexivity].
Qed.

(** From the second line on, and as long as the count, taken as a rune,
    has not come round to the letter a, a suffix is appended. *)
Lemma suffixOf_appended date count :
  (2 <= count <= 2 ^ 32)%Z ->
  suffixOf count = string_of_rune (int32 (byte "a" + count - 1)) /\
  suffixOf count <> "" /\ suffixOf count <> "a" /\
  commitDateOf date (suffixOf count) = date ++ "-" ++ suffixOf count.
Proof.
  intros Hc.
  assert (Hrune : suffixOf count = string_of_rune (int32 (byte "a" + count - 1))).
  { apply suffixOf_rune. change (2 ^ 32)%Z with 4294967296%Z in Hc.
    change (2 ^ 63)%Z with 9223372036854775808%Z. lia. }
  assert (Hempty : suffixOf count <> "") by (rewrite Hrune; apply encode_not_empty).
  assert (Ha : suffixOf count <> "a")
    by (rewrite Hrune; apply encode_not_a, rune_not_a; exact Hc).
  repeat split; try assumption. apply commitDateOf_suffixed; assumption.
Qed.

(** For the counts 2 to 26 the suffix is one lowercase letter. *)
Lemma suffixOf_letter count :
  (2 <= count <= 26)%Z -> suffixOf count = String (ofByte (byte "a" + (count - 1))) "".
Proof.
  intros Hc. rewrite suffixOf_rune.
  - rewrite rune_letter by exact Hc. apply encode_ascii. change (byte "a") with 97%Z. lia.
  - change (2 ^ 63)%Z with 9223372036854775808%Z. lia.
Qed.

Lemma sameDateLines_count history date :
  (Z.of_nat (sameDateLines history date) <= 2 ^ 32)%Z ->
  countSameDate history date = Z.of_nat (sameDateLines history date).
Proof.
  intros Hn. apply countSameDate_small.
  change (2 ^ 32)%Z with 4294967296%Z in Hn.
  change (2 ^ 63)%Z with 9223372036854775808%Z. lia.
Qed.

Ltac queried :=
  constructor; [vm_compute; reflexivity | discriminate | vm_compute; reflexivity ..].

Lemma queried_two :
  Queried (Scenario.commitsOnOneDay 2) [{| Path := "/td/b.txt"; IncludeSubdirs := false |}]
    ["/td/b.txt"] "9c0de41" "2025-09-11" (oneDay 2).
Proof. queried. Defined.

Lemma queried_three :
  Queried (Scenario.commitsOnOneDay 3) [{| Path := "/td/b.txt"; IncludeSubdirs := false |}]
    ["/td/b.txt"] "9c0de41" "2025-09-11" (oneDay 3).
Proof. queried. Defined.

Lemma append_not_self (s t : string) : t <> "" -> s ++ t <> s.
Proof.
  intros Ht. induction s as [| c s IH]; simpl.
  - exact Ht.
  - intros H. injection H as H. exact (IH H).
Qed.

(** Claim C1 as amended.  When the latest date is the date of exactly
    two lines of the history, [GetVersionMetadata] returns the date with
    the suffix [-b].  The counts 1 and 2 do not collapse: for a count
    of at most one the bare date is returned, and the suffix appears
    from the second commit of the day on: for every count from 2 to
    [2^32] the date returned is the date, a hyphen and a suffix that is
    not empty, hence not the bare date.  So, up to [2^32], the bare date
    is returned exactly for the counts of at most one. *)
Theorem second_commit_of_the_day_gets_suffix_b :
  forall (w : World) (targets : list PathTarget) (resolved : list string)
         (commitHash date history : string),
    Queried w targets resolved commitHash date history ->
    (sameDateLines history date = 2%nat ->
     eval w (GetVersionMetadata targets) = (date ++ "-b", commitHash, None)) /\
    ((sameDateLines history date <= 1)%nat ->
     eval w (GetVersionMetadata targets) = (date, commitHash, None)) /\
    ((2 <= Z.of_nat (sameDateLines history date) <= 2 ^ 32)%Z ->
     let suffix := suffixOf (Z.of_nat (sameDateLines history date)) in
     suffix <> "" /\
     eval w (GetVersionMetadata targets) = (date ++ "-" ++ suffix, commitHash, None) /\
     fst (fst (eval w (GetVersionMetadata targets))) <> date) /\
    ((Z.of_nat (sameDateLines history date) <= 2 ^ 32)%Z ->
     (fst (fst (eval w (GetVersionMetadata targets))) = date <->
      (sameDateLines history date <= 1)%nat)).
Proof.
  intros w targets resolved commitHash date history HQ.
  rewrite (GetVersionMetadata_queried _ _ _ _ _ _ HQ).
  assert (Hbare : (sameDateLines history date <= 1)%nat ->
                  (commitDateOf date (suffixOf (countSameDate history date)), commitHash,
                   @None error) = (date, commitHash, None)).
  { intros Hn. rewrite sameDateLines_count
      by (change (2 ^ 32)%Z with 4294967296%Z; lia).
    rewrite suffixOf_below_two by lia. reflexivity. }
  assert (Hfrom2 : (2 <= Z.of_nat (sameDateLines history date) <= 2 ^ 32)%Z ->
                   let suffix := suffixOf (Z.of_nat (sameDateLines history date)) in
                   suffix <> "" /\
                   (commitDateOf date (suffixOf (countSameDate history date)), commitHash,
                    @None error) = (date ++ "-" ++ suffix, commitHash, None) /\
                   fst (fst (commitDateOf date (suffixOf (countSameDate history date)),
                             commitHash, @None error)) <> date).
  { intros Hc suffix. subst suffix.
    rewrite sameDateLines_count by apply Hc.
    destruct (suffixOf_appended date _ Hc) as (_ & Hempty & _ & Happ).
    rewrite Happ. split; [exact Hempty |]. split; [reflexivity |].
    cbn [fst]. apply append_not_self. discriminate. }
  split; [| split; [exact Hbare | split; [exact Hfrom2 |]]].
  - intros Hn. rewrite sameDateLines_count by (rewrite Hn; vm_compute; discriminate).
    rewrite Hn. change (suffixOf (Z.of_nat 2)) with "b".
    rewrite commitDateOf_suffixed by discriminate. reflexivity.
  - intros Hc. split.
    + intros Hdate.
      destruct (Nat.le_gt_cases (sameDateLines history date) 1) as [Hle | Hgt];
        [exact Hle |].
      assert (Htwo : (2 <= Z.of_nat (sameDateLines history date))%Z) by lia.
      exfalso. apply (Hfrom2 (conj Htwo Hc)). exact Hdate.
    + intros Hn. rewrite (Hbare Hn). reflexivity.
Qed.

Lemma second_commit_of_the_day_gets_suffix_b_witness :
  sameDateLines (oneDay 2) "2025-09-11" = 2%nat /\
  eval (Scenario.commitsOnOneDay 2)
    (GetVersionMetadata [{| Path := "/td/b.txt"; IncludeSubdirs := false |}])
  = ("2025-09-11-b", "9c0de41", None).
Proof.
  split; [vm_compute; reflexivity |].
  apply (proj1 (second_commit_of_the_day_gets_suffix_b _ _ _ _ _ _ queried_two)).
  vm_compute; reflexivity.
Defined.

(** Claim C1 as stated fails: with two commits on the latest date, as
    in TestGetVersionMetadata_MultipleCommits_Suffix, the count is 2 and
    the date returned is not the bare date. *)
Lemma two_commits_are_not_collapsed_counterexample :
  Queried (Scenario.commitsOnOneDay 2) [{| Path := "/td/b.txt"; IncludeSubdirs := false |}]
    ["/td/b.txt"] "9c0de41" "2025-09-11" (oneDay 2) /\
  sameDateLines (oneDay 2) "2025-09-11" = 2%nat /\
  countSameDate (oneDay 2) "2025-09-11" = 2%Z /\
  eval (Scenario.commitsOnOneDay 2)
    (GetVersionMetadata [{| Path := "/td/b.txt"; IncludeSubdirs := false |}])
  = ("2025-09-11-b", "9c0de41", None) /\
  fst (fst (eval (Scenario.commitsOnOneDay 2)
              (GetVersionMetadata [{| Path := "/td/b.txt"; IncludeSubdirs := false |}])))
  <> "2025-09-11".
Proof.
  split; [exact queried_two |].
  repeat (split; [vm_compute; reflexivity |]).
  vm_compute. discriminate.
Qed.

(** Claim C2 as amended.  When the latest date is the date of [count]
    lines of the history, for [count] from 3 to 26, the date returned is
    the date, a hyphen and the single lowercase letter ['a' + (count -
    1)]: [-c] for three lines, [-d] for four. *)
Theorem suffix_letter_from_the_third_commit :
  forall (w : World) (targets : list PathTarget) (resolved : list string)
         (commitHash date history : string),
    Queried w targets resolved commitHash date history ->
    let count := Z.of_nat (sameDateLines history date) in
    let letter := ofByte (byte "a" + (count - 1)) in
    (3 <= count <= 26)%Z ->
    eval w (GetVersionMetadata targets) = (date ++ "-" ++ String letter "", commitHash, None) /\
    (byte "c" <= byte letter <= byte "z")%Z /\
    (count = 3%Z -> letter = "c"%char) /\
    (count = 4%Z -> letter = "d"%char).
Proof.
  intros w targets resolved commitHash date history HQ count letter Hc.
  rewrite (GetVersionMetadata_queried _ _ _ _ _ _ HQ).
  rewrite sameDateLines_count by (fold count; change (2 ^ 32)%Z with 4294967296%Z; lia).
  fold count.
  assert (Hletter : suffixOf count = String letter "") by (apply suffixOf_letter; lia).
  split; [| split; [| split]].
  - destruct (suffixOf_appended date count) as (_ & _ & _ & Happ).
    + change (2 ^ 32)%Z with 4294967296%Z; lia.
    + rewrite Happ, Hletter. reflexivity.
  - unfold letter. rewrite byte_ofByte; change (byte "a") with 97%Z.
    + change (byte "c") with 99%Z. change (byte "z") with 122%Z. lia.
    + lia.
  - intros H3. unfold letter. rewrite H3. reflexivity.
  - intros H4. unfold letter. rewrite H4. reflexivity.
Qed.

Lemma suffix_letter_from_the_third_commit_witness :
  (3 <= Z.of_nat (sameDateLines (oneDay 3) "2025-09-11") <= 26)%Z /\
  eval (Scenario.commitsOnOneDay 3)
    (GetVersionMetadata [{| Path := "/td/b.txt"; IncludeSubdirs := false |}])
  = ("2025-09-11-c", "9c0de41", None).
Proof.
  assert (Hc : (3 <= Z.of_nat (sameDateLines (oneDay 3) "2025-09-11") <= 26)%Z)
    by (vm_compute; split; discriminate).
  split; [exact Hc |].
  exact (proj1 (suffix_letter_from_the_third_commit _ _ _ _ _ _ queried_three Hc)).
Defined.

(** Claim C2 as stated fails: with three commits on the latest date the
    suffix is [-c], not the letter ['a' + (3 - 2)] of the claim. *)
Lemma third_commit_is_not_b_counterexample :
  Queried (Scenario.commitsOnOneDay 3) [{| Path := "/td/b.txt"; IncludeSubdirs := false |}]
    ["/td/b.txt"] "9c0de41" "2025-09-11" (oneDay 3) /\
  sameDateLines (oneDay 3) "2025-09-11" = 3%nat /\
  countSameDate (oneDay 3) "2025-09-11" = 3%Z /\
  eval (Scenario.commitsOnOneDay 3)
    (GetVersionMetadata [{| Path := "/td/b.txt"; IncludeSubdirs := false |}])
  = ("2025-09-11-c", "9c0de41", None) /\
  fst (fst (eval (Scenario.commitsOnOneDay 3)
              (GetVersionMetadata [{| Path := "/td/b.txt"; IncludeSubdirs := false |}])))
  <> "2025-09-11" ++ "-" ++ String (ofByte (byte "a" + (3 - 2))) "".
Proof.
  split; [exact queried_three |].
  repeat (split; [vm_compute; reflexivity |]).
  vm_compute. discriminate.
Qed.

(** The suffix is never the letter a alone. *)
Lemma suffixOf_never_a count : (count <= 2 ^ 32)%Z -> suffixOf count <> "a".
Proof.
  intros Hc. destruct (Z.le_gt_cases count 1) as [Hlow | Hhigh].
  - rewrite suffixOf_below_two by exact Hlow. discriminate.
  - apply (suffixOf_appended "" count). lia.
Qed.

(** The bound of [suffixOf_never_a] is the best one: one line more and
    the rune is the letter a again. *)
Lemma suffixOf_comes_round : suffixOf (2 ^ 32 + 1) = "a".
Proof. reflexivity. Qed.

(** Beyond 26 lines the character after the hyphen is no letter. *)
Lemma suffixOf_beyond_z : suffixOf 27 = "{".
Proof. reflexivity. Qed.

(** Claim C10 as amended.  Let the latest date be the date of [count]
    lines of the history, [count] at most [2^32] (beyond which the count
    converted to a rune comes round to the letter a).  The suffix is
    never the letter a, so the branch of line 148 is taken only for the
    empty suffix.  For [count] at least 2 the suffix is not empty either
    and is appended to the date: it is the character ['a' + count - 1],
    for the counts from 2 to 26 a lowercase letter from b to z. *)
Theorem suffix_is_appended_from_the_second_commit :
  forall (w : World) (targets : list PathTarget) (resolved : list string)
         (commitHash date history : string),
    Queried w targets resolved commitHash date history ->
    let count := Z.of_nat (sameDateLines history date) in
    let suffix := suffixOf count in
    (count <= 2 ^ 32)%Z ->
    countSameDate history date = count /\
    suffix <> "a" /\
    ((2 <= count)%Z ->
     suffix = string_of_rune (int32 (byte "a" + count - 1)) /\
     suffix <> "" /\
     commitDateOf date suffix = date ++ "-" ++ suffix /\
     eval w (GetVersionMetadata targets) = (date ++ "-" ++ suffix, commitHash, None)) /\
    ((2 <= count <= 26)%Z ->
     suffix = String (ofByte (byte "a" + (count - 1))) "" /\
     (byte "b" <= byte "a" + (count - 1) <= byte "z")%Z).
Proof.
  intros w targets resolved commitHash date history HQ count suffix Hc.
  subst suffix.
  assert (Hcount : countSameDate history date = count)
    by (apply sameDateLines_count; exact Hc).
  split; [exact Hcount |]. split; [apply suffixOf_never_a; exact Hc |]. split.
  - intros Htwo.
    destruct (suffixOf_appended date count (conj Htwo Hc)) as (Hrune & Hempty & _ & Happ).
    repeat (split; [assumption |]).
    rewrite (GetVersionMetadata_queried _ _ _ _ _ _ HQ), Hcount, Happ. reflexivity.
  - intros Hsmall. split.
    + apply suffixOf_letter. exact Hsmall.
    + change (byte "a") with 97%Z. change (byte "b") with 98%Z.
      change (byte "z") with 122%Z. lia.
Qed.

Lemma suffix_is_appended_from_the_second_commit_witness :
  (Z.of_nat (sameDateLines (oneDay 2) "2025-09-11") <= 2 ^ 32)%Z /\
  (2 <= Z.of_nat (sameDateLines (oneDay 2) "2025-09-11"))%Z /\
  suffixOf (Z.of_nat (sameDateLines (oneDay 2) "2025-09-11")) <> "a" /\
  eval (Scenario.commitsOnOneDay 2)
    (GetVersionMetadata [{| Path := "/td/b.txt"; IncludeSubdirs := false |}])
  = ("2025-09-11" ++ "-" ++ suffixOf (Z.of_nat (sameDateLines (oneDay 2) "2025-09-11")),
     "9c0de41", None).
Proof.
  assert (Hc : (Z.of_nat (sameDateLines (oneDay 2) "2025-09-11") <= 2 ^ 32)%Z)
    by (vm_compute; discriminate).
  assert (Htwo : (2 <= Z.of_nat (sameDateLines (oneDay 2) "2025-09-11"))%Z)
    by (vm_compute; discriminate).
  pose proof (suffix_is_appended_from_the_second_commit _ _ _ _ _ _ queried_two Hc)
    as (_ & Ha & Happ & _).
  destruct (Happ Htwo) as (_ & _ & _ & Hrun).
  split; [exact Hc |]. split; [exact Htwo |]. split; [exact Ha | exact Hrun].
Defined.

(** ** White space and the output of git *)

Lemma runesN_plain s :
  allb plain s = true ->
  forall fuel, (String.length s <= fuel)%nat -> utf8.runesN fuel s = singles s.
Proof.
  induction s as [| c s IH]; intros Hplain fuel Hfuel.
  - destruct fuel; reflexivity.
  - simpl in Hplain. apply andb_true_iff in Hplain as [Hc Hs].
    apply andb_true_iff in Hc as [Hascii _].
    destruct fuel as [| fuel]; [simpl in Hfuel; lia |].
    cbn [utf8.runesN utf8.DecodeRuneInString]. rewrite Hascii.
    cbn [take drop singles]. f_equal.
    apply IH; [exact Hs | simpl in Hfuel; lia].
Qed.

Lemma singles_not_space s :
  allb plain s = true -> Forall (fun x => strings.isSpace x = false) (singles s).
Proof.
  induction s as [| c s IH]; intros Hplain; simpl; constructor.
  - simpl in Hplain. apply andb_true_iff in Hplain as [Hc _].
    apply andb_true_iff in Hc as [_ Hspace].
    unfold strings.isSpace. simpl. apply negb_true_iff. exact Hspace.
  - apply IH. simpl in Hplain. apply andb_true_iff in Hplain as [_ Hs]. exact Hs.
Qed.

Lemma dropWhile_none {A : Type} (f : A -> bool) (l : list A) :
  Forall (fun x => f x = false) l -> strings.dropWhile f l = l.
Proof. intros H. destruct H as [| x l Hx _]; simpl; [| rewrite Hx]; reflexivity. Qed.

Lemma bytesOf_singles s : utf8.bytesOf (singles s) = s.
Proof. induction s as [| c s IH]; simpl; [| rewrite IH]; reflexivity. Qed.

(** [strings.TrimSpace] leaves a string of plain characters as it is. *)
Lemma TrimSpace_plain s : allb plain s = true -> strings.TrimSpace s = s.
Proof.
  intros Hplain. unfold strings.TrimSpace, utf8.runes.
  rewrite (runesN_plain s Hplain) by apply le_n.
  pose proof (singles_not_space s Hplain) as Hns.
  rewrite (dropWhile_none _ _ Hns).
  rewrite dropWhile_none by (apply Forall_rev; exact Hns).
  rewrite rev_involutive. apply bytesOf_singles.
Qed.

Lemma allb_impl (f g : ascii -> bool) s :
  (forall c, f c = true -> g c = true) -> allb f s = true -> allb g s = true.
Proof.
  intros Hfg. induction s as [| c s IH]; simpl; [reflexivity |].
  rewrite !andb_true_iff. intros [Hc Hs]. split; [apply Hfg, Hc | apply IH, Hs].
Qed.

Lemma plain_between lo hi c :
  (32 < lo)%Z -> (hi < 128)%Z ->
  ((lo <=? byte c) && (byte c <=? hi))%Z = true -> plain c = true.
Proof.
  intros Hlo Hhi H. apply andb_true_iff in H as [H1 H2].
  apply Z.leb_le in H1, H2. unfold plain, unicode.IsSpace, utf8.RuneSelf.
  apply andb_true_iff. split; [apply Z.ltb_lt; lia |].
  apply negb_true_iff.
  repeat match goal with
         | |- (_ || _)%bool = false => apply orb_false_iff; split
         | |- (_ && _)%bool = false => apply andb_false_iff
         end;
    try (apply Z.eqb_neq; lia).
  - right. apply Z.leb_gt. lia.
  - left. apply Z.leb_gt. lia.
Qed.

Lemma isDigit_plain c : isDigit c = true -> plain c = true.
Proof. apply plain_between; vm_compute; reflexivity. Qed.

Lemma isHexDigit_plain c : isHexDigit c = true -> plain c = true.
Proof.
  unfold isHexDigit. intros H. apply orb_true_iff in H as [H | H].
  - apply isDigit_plain, H.
  - revert H. apply plain_between; vm_compute; reflexivity.
Qed.

Lemma TrimSpace_hash s : isAbbrevHash s = true -> strings.TrimSpace s = s /\ s <> "".
Proof.
  unfold isAbbrevHash. intros H. apply andb_true_iff in H as [Hne Hhex]. split.
  - apply TrimSpace_plain, (allb_impl isHexDigit); [apply isHexDigit_plain | exact Hhex].
  - apply negb_true_iff in Hne. apply String.eqb_neq, Hne.
Qed.

Lemma TrimSpace_date s : isDate s = true -> strings.TrimSpace s = s.
Proof.
  intros H. apply TrimSpace_plain.
  do 10 (destruct s as [| ? s]; [discriminate H |]). destruct s; [| discriminate H].
  unfold isDate in H. cbn [allb] in *.
  repeat match goal with
         | H : (_ && _)%bool = true |- _ => apply andb_true_iff in H as [? ?]
         end.
  repeat match goal with
         | H : isDigit _ = true |- _ => apply isDigit_plain in H; rewrite H; clear H
         | H : (_ =? "-")%char = true |- _ => apply Ascii.eqb_eq in H; subst
         end.
  reflexivity.
Qed.

(** ** A file with one commit *)

Lemma eval_gitOutputIn w dir args :
  eval w (gitOutputIn dir args) =
  (strings.TrimSpace (fst (runCmd w (gitCmd dir args))), snd (runCmd w (gitCmd dir args))).
Proof.
  unfold gitOutputIn. rewrite eval_bind.
  change (eval w (exec.Run (gitCmd dir args))) with (runCmd w (gitCmd dir args)).
  destruct (runCmd w (gitCmd dir args)); reflexivity.
Qed.

Lemma file_target_resolves w t :
  strings.ContainsAny (filepath.Clean (Path t)) "*?[" = false ->
  stat w (filepath.Clean (Path t)) = inr {| fi_IsDir := false |} ->
  eval w (resolveTargets [t]) = inr [filepath.Clean (Path t)] /\
  eval w (chooseWorkDir [filepath.Clean (Path t)]) = filepath.Dir (filepath.Clean (Path t)).
Proof.
  intros Hmeta Hstat. split.
  - unfold resolveTargets, rangeTargets. cbn [List.length Nat.eqb].
    rewrite eval_forRange_one. unfold targetBody. rewrite Hmeta, eval_bind.
    change (eval w (os.Stat (filepath.Clean (Path t)))) with (stat w (filepath.Clean (Path t))).
    rewrite Hstat. reflexivity.
  - unfold chooseWorkDir. cbn [List.length Nat.ltb Nat.leb nth]. rewrite eval_bind.
    change (eval w (os.Stat (filepath.Clean (Path t)))) with (stat w (filepath.Clean (Path t))).
    rewrite Hstat. reflexivity.
Qed.

(** The result for a file target when git answers the three queries as
    they are put.  Let the target be a single path whose cleaned form
    [p] has no glob character and names a file, and let git, run in the
    directory of [p] with the argument [p], print an abbreviated hash, a
    date YYYY-MM-DD, and a history in which exactly one line is that
    date.  Then [GetVersionMetadata] returns that date without a suffix,
    the hash and no error.  Whether git answers so for a file with one
    commit depends on how the file is named, as the host [Git.oneCommit]
    shows below. *)
Theorem single_commit_file_has_bare_date :
  forall (w : World) (path : string) (includeSubdirs : bool)
         (rawHash rawDate rawHistory : string),
    let p := filepath.Clean path in
    let workDir := filepath.Dir p in
    strings.ContainsAny p "*?[" = false ->
    stat w p = inr {| fi_IsDir := false |} ->
    runCmd w (gitCmd workDir (argsHash [p])) = (rawHash, None) ->
    runCmd w (gitCmd workDir (argsDate [p])) = (rawDate, None) ->
    runCmd w (gitCmd workDir (argsCount [p])) = (rawHistory, None) ->
    isAbbrevHash rawHash = true ->
    isDate rawDate = true ->
    sameDateLines (strings.TrimSpace rawHistory) rawDate = 1%nat ->
    eval w (GetVersionMetadata [{| Path := path; IncludeSubdirs := includeSubdirs |}])
    = (rawDate, rawHash, None) /\
    rawHash <> "".
Proof.
  intros w path includeSubdirs rawHash rawDate rawHistory p workDir
    Hmeta Hstat Hhash Hdate Hhist Hfmt Hymd Hone.
  destruct (TrimSpace_hash rawHash Hfmt) as [Htrim Hne].
  pose proof (TrimSpace_date rawDate Hymd) as Htrimd.
  destruct (file_target_resolves w {| Path := path; IncludeSubdirs := includeSubdirs |}
              Hmeta Hstat) as [Hres Hdir].
  cbn [Path] in Hres, Hdir. fold p in Hres, Hdir. fold workDir in Hdir.
  assert (HQ : Queried w [{| Path := path; IncludeSubdirs := includeSubdirs |}] [p]
                 rawHash rawDate (strings.TrimSpace rawHistory)).
  { constructor; try rewrite Hdir; try rewrite eval_gitOutputIn.
    - exact Hres.
    - discriminate.
    - rewrite Hhash. simpl. rewrite Htrim. reflexivity.
    - rewrite Hdate. simpl. rewrite Htrimd. reflexivity.
    - rewrite Hhist. reflexivity. }
  split; [| exact Hne].
  rewrite (GetVersionMetadata_queried _ _ _ _ _ _ HQ).
  rewrite sameDateLines_count by (rewrite Hone; vm_compute; discriminate).
  rewrite Hone. reflexivity.
Qed.

Lemma single_commit_file_has_bare_date_witness :
  eval Scenario.singleFile
    (GetVersionMetadata [{| Path := "/td/a.txt"; IncludeSubdirs := false |}])
  = ("2025-09-10", "3f2a1bc", None) /\
  "3f2a1bc" <> "".
Proof.
  apply (single_commit_file_has_bare_date Scenario.singleFile "/td/a.txt" false
           "3f2a1bc" "2025-09-10" "2025-09-10");
    vm_compute; reflexivity.
Defined.

(** Claim C3.  The claim is not met for a file named from the
    directory of the caller.  The file [sub/main.go] of the work tree
    [/td] is touched by exactly one commit: asked from the top of the
    tree, git lists one date for it.  For the target [sub/main.go],
    lines 100-107 make git run in the directory [sub], and lines 111,
    119 and 127 hand it the path unchanged; read from [sub], the path is
    [sub/sub/main.go], which no commit touches, and git prints nothing
    and succeeds.  [GetVersionMetadata] returns an empty date, an empty
    hash and no error.  Named [/td/sub/main.go], the same file gets the
    date and the hash of its commit. *)
Theorem relative_file_with_one_commit_gets_no_metadata :
  stat Git.oneCommit "sub/main.go" = inr {| fi_IsDir := false |} /\
  runCmd Git.oneCommit (gitCmd "" (argsCount ["sub/main.go"])) = ("2025-09-14", None) /\
  runCmd Git.oneCommit (gitCmd "" (argsHash ["sub/main.go"])) = ("0a1b2c3", None) /\
  sameDateLines "2025-09-14" "2025-09-14" = 1%nat /\
  run Git.oneCommit (GetVersionMetadata [{| Path := "sub/main.go"; IncludeSubdirs := false |}])
  = (("", "", None),
     StatOp "sub/main.go" :: StatOp "sub/main.go" :: queryOps "sub" ["sub/main.go"]) /\
  runCmd Git.oneCommit (gitCmd "sub" (argsHash ["sub/main.go"])) = ("", None) /\
  runCmd Git.oneCommit (gitCmd "sub" (argsHash ["main.go"])) = ("0a1b2c3", None) /\
  eval Git.oneCommit
    (GetVersionMetadata [{| Path := "/td/sub/main.go"; IncludeSubdirs := false |}])
  = ("2025-09-14", "0a1b2c3", None).
Proof.
  repeat (split; [vm_compute; reflexivity |]). vm_compute; reflexivity.
Qed.

(** ** The sync check *)

Lemma run_gitOutput w args :
  run w (gitOutput args) =
  ((strings.TrimSpace (fst (runCmd w (gitCmd "" args))), snd (runCmd w (gitCmd "" args))),
   [gitOp args]).
Proof.
  unfold gitOutput, gitOutputIn, exec.Run, gitOp. simpl.
  destruct (runCmd w _); reflexivity.
Qed.

(** The sync check is the first failure of its checks, taken in order,
    and makes the calls of the checks up to that one. *)
Lemma sync_first_failure w :
  run w AssertBranchIsCleanAndSynced = firstFailure (syncChecks w).
Proof.
  unfold syncChecks, partsIn, branchIn, eval. rewrite !run_gitOutput.
  unfold AssertBranchIsCleanAndSynced, returned, gitOutput, gitOutputIn, exec.Run, gitOp.
  unfold argsRevParse, argsFetch, argsRevList, argsStatus.
  cbn [run bind andThen Return Next fst snd firstFailure].
  destruct (runCmd w (gitCmd "" ["rev-parse"; "--abbrev-ref"; "HEAD"])) as [out1 [e1 |]];
    [reflexivity |].
  cbn [run bind andThen Return Next fst snd firstFailure].
  destruct (runCmd w (gitCmd "" ["fetch"; _; _; _])) as [out2 [e2 |]]; [reflexivity |].
  cbn [run bind andThen Return Next fst snd firstFailure].
  destruct (runCmd w (gitCmd "" ["rev-list"; _; _; _])) as [out3 [e3 |]]; [reflexivity |].
  cbn [run bind andThen Return Next fst snd firstFailure].
  destruct (negb (List.length (strings.Fields (strings.TrimSpace out3)) =? 2)%nat);
    [reflexivity |].
  cbn [run bind andThen Return Next fst snd firstFailure failsIf].
  destruct (negb (nth 0 (strings.Fields (strings.TrimSpace out3)) "" =? "0"));
    [reflexivity |].
  cbn [run bind andThen Return Next fst snd firstFailure failsIf].
  destruct (negb (nth 1 (strings.Fields (strings.TrimSpace out3)) "" =? "0"));
    [reflexivity |].
  cbn [run bind andThen Return Next fst snd firstFailure failsIf].
  destruct (runCmd w (gitCmd "" ["status"; "--porcelain"])) as [out4 [e4 |]]; [reflexivity |].
  cbn [run bind andThen Return Next fst snd firstFailure failsIf].
  destruct (negb (strings.TrimSpace (strings.TrimSpace out4) =? "")); reflexivity.
Qed.

Lemma two_fields (parts : list string) :
  negb (List.length parts =? 2)%nat = false -> exists behind ahead, parts = [behind; ahead].
Proof.
  destruct parts as [| behind [| ahead [| x parts]]]; try discriminate.
  intros _. exists behind, ahead. reflexivity.
Qed.

Lemma gitOp_inj args args' : gitOp args = gitOp args' -> args = args'.
Proof. unfold gitOp, gitCmd. simpl. intros H. injection H as H. exact H. Qed.

(** One case of the sync check: the calls are an initial part of the
    queries; [behind] settles the case for the behind error; the status
    query needs two zero fields. *)
Ltac sync_case behind :=
  cbn [firstFailure failsIf snd fst app negb nth];
  split; [eexists; cbn [app]; reflexivity |];
  split;
  [ intros H1 H2 H3 behind' ahead' Heq Hbehind; behind
  | intros Hin; cbn [In] in Hin;
    repeat (destruct Hin as [Hin | Hin];
            [try (apply gitOp_inj in Hin; discriminate Hin) |]);
    try contradiction; repeat split ].

(** Claim C5.  The sync check is the first failure of the checks of
    section 4.3 taken in their order (branch name, fetch, ahead/behind,
    working-tree status), and it makes the calls of the checks up to the
    one that fails and no other: its calls are an initial part of the
    four queries in that order.  When the three first queries succeed
    and the first field is not 0, the error is the behind error whatever
    the second field is, and the status query is not made.  The status
    query is made only when both fields are 0. *)
Theorem sync_checks_in_order_first_failure_wins :
  forall w : World,
    let branch := branchIn w in
    let parts := partsIn w in
    let queries :=
      [gitOp argsRevParse; gitOp (argsFetch branch); gitOp (argsRevList branch);
       gitOp argsStatus] in
    run w AssertBranchIsCleanAndSynced = firstFailure (syncChecks w) /\
    (exists rest, queries = (trace w AssertBranchIsCleanAndSynced ++ rest)%list) /\
    (succeeds w argsRevParse -> succeeds w (argsFetch branch) ->
     succeeds w (argsRevList branch) ->
     forall behind ahead,
       parts = [behind; ahead] -> behind <> "0" ->
       run w AssertBranchIsCleanAndSynced =
       (Some (errBehind branch),
        [gitOp argsRevParse; gitOp (argsFetch branch); gitOp (argsRevList branch)])) /\
    (In (gitOp argsStatus) (trace w AssertBranchIsCleanAndSynced) ->
     succeeds w argsRevParse /\ succeeds w (argsFetch branch) /\
     succeeds w (argsRevList branch) /\ parts = ["0"; "0"]).
Proof.
  intros w branch parts queries.
  pose proof (sync_first_failure w) as Hrun.
  unfold trace, succeeds. rewrite Hrun. unfold syncChecks. fold branch. fold parts.
  split; [reflexivity |].
  destruct (snd (eval w (gitOutput argsRevParse))) as [e1 |];
    [sync_case ltac:(discriminate) |].
  destruct (snd (eval w (gitOutput (argsFetch branch)))) as [e2 |];
    [sync_case ltac:(discriminate) |].
  destruct (snd (eval w (gitOutput (argsRevList branch)))) as [e3 |];
    [sync_case ltac:(discriminate) |].
  destruct (negb (List.length parts =? 2)%nat) eqn:Elen;
    [sync_case ltac:(idtac; match goal with
                     | H : parts = _ |- _ => rewrite H in Elen; discriminate Elen
                     end) |].
  destruct (two_fields parts Elen) as (b & a & Hparts). rewrite Hparts. cbn [nth].
  destruct (b =? "0") eqn:Eb; [| sync_case ltac:(reflexivity)].
  apply String.eqb_eq in Eb. subst b.
  destruct (a =? "0") eqn:Ea;
    [| sync_case ltac:(idtac; match goal with
                       | H : [_; _] = [_; _] |- _ => injection H as <- _; congruence
                       end)].
  apply String.eqb_eq in Ea. subst a.
  destruct (snd (eval w (gitOutput argsStatus))) as [e4 |];
    [sync_case ltac:(idtac; match goal with
                     | H : [_; _] = [_; _] |- _ => injection H as <- _; congruence
                     end) |].
  destruct (negb (strings.TrimSpace (fst (eval w (gitOutput argsStatus))) =? ""));
    sync_case ltac:(idtac; match goal with
                    | H : [_; _] = [_; _] |- _ => injection H as <- _; congruence
                    end).
Qed.

Lemma sync_checks_in_order_first_failure_wins_witness :
  let w := Scenario.syncHost "main" ("2" ++ String "009" "3") "" in
  succeeds w argsRevParse /\ succeeds w (argsFetch (branchIn w)) /\
  succeeds w (argsRevList (branchIn w)) /\
  partsIn w = ["2"; "3"] /\ "2" <> "0" /\
  run w AssertBranchIsCleanAndSynced =
  (Some (errBehind (branchIn w)),
   [gitOp argsRevParse; gitOp (argsFetch (branchIn w)); gitOp (argsRevList (branchIn w))]).
Proof.
  intros w.
  assert (H1 : succeeds w argsRevParse) by (vm_compute; reflexivity).
  assert (H2 : succeeds w (argsFetch (branchIn w))) by (vm_compute; reflexivity).
  assert (H3 : succeeds w (argsRevList (branchIn w))) by (vm_compute; reflexivity).
  assert (Hparts : partsIn w = ["2"; "3"]) by (vm_compute; reflexivity).
  assert (Hbehind : "2" <> "0") by discriminate.
  repeat (split; [assumption |]).
  exact (proj1 (proj2 (proj2 (sync_checks_in_order_first_failure_wins w)))
           H1 H2 H3 "2" "3" Hparts Hbehind).
Defined.

Lemma fst_firstFailure_passed calls checks :
  fst (firstFailure ((calls, None) :: checks)) = fst (firstFailure checks).
Proof. simpl. destruct (firstFailure checks); reflexivity. Qed.

Lemma Error_errBehind branch :
  Error (errBehind branch) = "your branch is behind origin/" ++ branch.
Proof. simpl. rewrite append_empty_r. reflexivity. Qed.

Lemma Error_errAhead branch :
  Error (errAhead branch) = "your branch is ahead of origin/" ++ branch.
Proof. simpl. rewrite append_empty_r. reflexivity. Qed.

(** Claim C6.  When the branch name, the fetch and the ahead/behind
    query succeed, the output of the query is split into fields at white
    space.  If the fields are not exactly two, the check fails with the
    unexpected-output error.  If they are two and the first is not 0
    (as for every behind count that is not zero), it fails with the
    behind error, whose message names the branch; if the first is 0 and
    the second is not, it fails with the ahead error, whose message
    names the branch. *)
Theorem ahead_behind_output_is_classified :
  forall w : World,
    let branch := branchIn w in
    let parts := partsIn w in
    succeeds w argsRevParse ->
    succeeds w (argsFetch branch) ->
    succeeds w (argsRevList branch) ->
    (List.length parts <> 2%nat ->
     eval w AssertBranchIsCleanAndSynced = Some errUnexpectedOutput) /\
    (forall behind ahead,
        parts = [behind; ahead] -> behind <> "0" ->
        eval w AssertBranchIsCleanAndSynced = Some (errBehind branch)) /\
    (forall behind ahead,
        parts = [behind; ahead] -> behind = "0" -> ahead <> "0" ->
        eval w AssertBranchIsCleanAndSynced = Some (errAhead branch)) /\
    Error errUnexpectedOutput = "unexpected output from git rev-list" /\
    Error (errBehind branch) = "your branch is behind origin/" ++ branch /\
    Error (errAhead branch) = "your branch is ahead of origin/" ++ branch.
Proof.
  intros w branch parts H1 H2 H3.
  assert (Hrun : eval w AssertBranchIsCleanAndSynced =
                 fst (firstFailure
                        [([], failsIf (negb (List.length parts =? 2)%nat) errUnexpectedOutput);
                         ([], failsIf (negb (nth 0 parts "" =? "0")) (errBehind branch));
                         ([], failsIf (negb (nth 1 parts "" =? "0")) (errAhead branch));
                         ([gitOp argsStatus], snd (eval w (gitOutput argsStatus)));
                         ([], failsIf
                                (negb (strings.TrimSpace
                                         (fst (eval w (gitOutput argsStatus))) =? ""))
                                errUncommitted)])).
  { unfold eval at 1. rewrite sync_first_failure. unfold syncChecks.
    fold branch. fold parts. unfold succeeds in H1, H2, H3.
    rewrite H1, H2, H3, !fst_firstFailure_passed. reflexivity. }
  rewrite Hrun. clear Hrun.
  split; [| split; [| split; [| split; [| split]]]].
  - intros Hlen. apply Nat.eqb_neq in Hlen. rewrite Hlen. reflexivity.
  - intros behind ahead Hparts Hbehind. rewrite Hparts. cbn [List.length Nat.eqb negb nth].
    apply String.eqb_neq in Hbehind. rewrite Hbehind. reflexivity.
  - intros behind ahead Hparts Hbehind Hahead. rewrite Hparts, Hbehind.
    cbn [List.length Nat.eqb negb nth].
    apply String.eqb_neq in Hahead. rewrite Hahead. reflexivity.
  - reflexivity.
  - apply Error_errBehind.
  - apply Error_errAhead.
Qed.

Lemma ahead_behind_output_is_classified_witness :
  let w := Scenario.syncHost "main" ("0" ++ String "009" "3") "" in
  succeeds w argsRevParse /\ succeeds w (argsFetch (branchIn w)) /\
  succeeds w (argsRevList (branchIn w)) /\
  partsIn w = ["0"; "3"] /\ "3" <> "0" /\
  eval w AssertBranchIsCleanAndSynced = Some (errAhead (branchIn w)).
Proof.
  intros w.
  assert (H1 : succeeds w argsRevParse) by (vm_compute; reflexivity).
  assert (H2 : succeeds w (argsFetch (branchIn w))) by (vm_compute; reflexivity).
  assert (H3 : succeeds w (argsRevList (branchIn w))) by (vm_compute; reflexivity).
  assert (Hparts : partsIn w = ["0"; "3"]) by (vm_compute; reflexivity).
  assert (Hahead : "3" <> "0") by discriminate.
  repeat (split; [assumption |]).
  exact (proj1 (proj2 (proj2 (ahead_behind_output_is_classified w H1 H2 H3)))
           "0" "3" Hparts eq_refl Hahead).
Defined.


(** * Further properties of the code *)

(** ** The loop over the targets *)

Lemma run_pair {A : Type} w (p : Prog A) : run w p = (eval w p, trace w p).
Proof. unfold eval, trace. destruct (run w p); reflexivity. Qed.

Lemma trace_forRange_app {R A S : Type} w (xs ys : list A) (body : A -> S -> Body R S) (s : S) :
  trace w (forRange (xs ++ ys)%list body s) =
  (trace w (forRange xs body s) ++
   match eval w (forRange xs body s) with
   | inl _ => []
   | inr s' => trace w (forRange ys body s')
   end)%list.
Proof.
  revert s. induction xs as [| x xs IH]; intros s; simpl.
  - reflexivity.
  - rewrite !trace_andThen, !eval_andThen.
    destruct (eval w (body x s)) as [r | s'].
    + rewrite !app_nil_r. reflexivity.
    + rewrite IH, app_assoc. reflexivity.
Qed.

(** The loop stops at the first target whose body returns. *)
Lemma rangeTargets_stops w before t after resolved r :
  eval w (rangeTargets before []) = inr resolved ->
  eval w (targetBody t resolved) = inl r ->
  eval w (resolveTargets (before ++ t :: after)) = inl r /\
  trace w (resolveTargets (before ++ t :: after)) =
  (trace w (rangeTargets before []) ++ trace w (targetBody t resolved))%list.
Proof.
  intros Hbefore Ht.
  rewrite resolveTargets_nonempty by (destruct before; discriminate).
  unfold rangeTargets in *. split.
  - rewrite eval_forRange_app, Hbefore. simpl. rewrite eval_andThen, Ht. reflexivity.
  - rewrite trace_forRange_app, Hbefore. simpl. rewrite trace_andThen, Ht, app_nil_r.
    reflexivity.
Qed.

(** X1.  When the targets before [t] resolve and the body of the loop
    returns at [t], [GetVersionMetadata] returns what the body returned,
    and its calls are those of the targets before [t] and of [t]: the
    targets after [t] are not looked at and git is not run. *)
Theorem first_failing_target_decides :
  forall (w : World) (before after : list PathTarget) (t : PathTarget)
         (resolved : list string) (r : Result),
    eval w (rangeTargets before []) = inr resolved ->
    eval w (targetBody t resolved) = inl r ->
    run w (GetVersionMetadata (before ++ t :: after)) =
    (r, (trace w (rangeTargets before []) ++ trace w (targetBody t resolved))%list) /\
    Forall (fun op => isRun op = false) (trace w (GetVersionMetadata (before ++ t :: after))).
Proof.
  intros w before after t resolved r Hbefore Ht.
  destruct (rangeTargets_stops w before t after resolved r Hbefore Ht) as [Hval Htr].
  destruct (GetVersionMetadata_unresolved w _ r Hval) as [Hres Htrace].
  split.
  - rewrite run_pair, Hres, Htrace, Htr. reflexivity.
  - rewrite Htrace. apply (Post_run w _ _ _ (resolveTargets_post _)).
Qed.

Lemma first_failing_target_decides_witness :
  run Scenario.nested
    (GetVersionMetadata
       [{| Path := "/td/root.txt"; IncludeSubdirs := false |};
        {| Path := "/td/gone.txt"; IncludeSubdirs := false |};
        {| Path := "/td/sub"; IncludeSubdirs := true |}])
  = (("", "",
      Some (wrapError "stat /td/gone.txt: stat /td/gone.txt: no such file or directory"
              (Scenario.notExist "stat" "/td/gone.txt"))),
     [StatOp "/td/root.txt"; StatOp "/td/gone.txt"]).
Proof.
  exact (proj1 (first_failing_target_decides Scenario.nested
                  [{| Path := "/td/root.txt"; IncludeSubdirs := false |}]
                  [{| Path := "/td/sub"; IncludeSubdirs := true |}]
                  {| Path := "/td/gone.txt"; IncludeSubdirs := false |}
                  ["/td/root.txt"] _ eq_refl eq_refl)).
Defined.

(** ** The errors of the resolution *)

Lemma eval_Stat w name : eval w (os.Stat name) = stat w name.
Proof. reflexivity. Qed.

Lemma eval_ReadDir w name : eval w (os.ReadDir name) = readDir w name.
Proof. reflexivity. Qed.

Lemma eval_Glob w pattern : eval w (filepath.Glob pattern) = glob w pattern.
Proof. reflexivity. Qed.

(** X2.  A literal target whose path cannot be examined makes
    [GetVersionMetadata] fail, once the targets before it have resolved,
    with an error that wraps the error of the host and whose message is
    [stat], the cleaned path and the message of the host. *)
Theorem missing_path_error :
  forall (w : World) (before after : list PathTarget) (t : PathTarget)
         (resolved : list string) (e : error),
    let p := filepath.Clean (Path t) in
    strings.ContainsAny p "*?[" = false ->
    stat w p = inl e ->
    eval w (rangeTargets before []) = inr resolved ->
    exists err,
      eval w (GetVersionMetadata (before ++ t :: after)) = ("", "", Some err) /\
      Error err = "stat " ++ p ++ ": " ++ Error e /\
      Unwrap err = Some e.
Proof.
  intros w before after t resolved e p Hmeta Hstat Hbefore.
  exists (fmt.Errorf "stat %s: %w" [fmt.Str p; fmt.Err e]).
  split; [| split; [simpl; rewrite append_empty_r; reflexivity | reflexivity]].
  assert (Ht : eval w (targetBody t resolved) =
               inl ("", "", Some (fmt.Errorf "stat %s: %w" [fmt.Str p; fmt.Err e]))).
  { unfold targetBody. fold p. rewrite Hmeta, eval_bind, eval_Stat, Hstat. reflexivity. }
  destruct (rangeTargets_stops w before t after resolved _ Hbefore Ht) as [Hval _].
  apply (GetVersionMetadata_unresolved w _ _ Hval).
Qed.

Lemma missing_path_error_witness :
  exists err,
    eval Scenario.nested
      (GetVersionMetadata [{| Path := "/td/./gone.txt"; IncludeSubdirs := false |}])
    = ("", "", Some err) /\
    Error err = "stat " ++ "/td/gone.txt" ++ ": "
                ++ Error (Scenario.notExist "stat" "/td/gone.txt") /\
    Unwrap err = Some (Scenario.notExist "stat" "/td/gone.txt").
Proof.
  exact (missing_path_error Scenario.nested [] []
           {| Path := "/td/./gone.txt"; IncludeSubdirs := false |} []
           (Scenario.notExist "stat" "/td/gone.txt") eq_refl eq_refl eq_refl).
Defined.

(** X3.  A literal directory target without [IncludeSubdirs] whose
    directory cannot be listed makes [GetVersionMetadata] fail, once the
    targets before it have resolved, with an error that wraps the error
    of the host and whose message is [read dir], the cleaned path and
    the message of the host. *)
Theorem unreadable_directory_error :
  forall (w : World) (before after : list PathTarget) (t : PathTarget)
         (resolved : list string) (e : error),
    let p := filepath.Clean (Path t) in
    strings.ContainsAny p "*?[" = false ->
    stat w p = inr {| fi_IsDir := true |} ->
    IncludeSubdirs t = false ->
    readDir w p = inl e ->
    eval w (rangeTargets before []) = inr resolved ->
    exists err,
      eval w (GetVersionMetadata (before ++ t :: after)) = ("", "", Some err) /\
      Error err = "read dir " ++ p ++ ": " ++ Error e /\
      Unwrap err = Some e.
Proof.
  intros w before after t resolved e p Hmeta Hstat Hflag Hread Hbefore.
  exists (fmt.Errorf "read dir %s: %w" [fmt.Str p; fmt.Err e]).
  split; [| split; [simpl; rewrite append_empty_r; reflexivity | reflexivity]].
  assert (Ht : eval w (targetBody t resolved) =
               inl ("", "", Some (fmt.Errorf "read dir %s: %w" [fmt.Str p; fmt.Err e]))).
  { unfold targetBody. fold p. rewrite Hmeta, eval_bind, eval_Stat, Hstat.
    cbn [fi_IsDir]. rewrite Hflag, eval_bind, eval_ReadDir, Hread. reflexivity. }
  destruct (rangeTargets_stops w before t after resolved _ Hbefore Ht) as [Hval _].
  apply (GetVersionMetadata_unresolved w _ _ Hval).
Qed.

Lemma unreadable_directory_error_witness :
  exists err,
    eval Hosts.restricted
      (GetVersionMetadata [{| Path := "/locked/"; IncludeSubdirs := false |}])
    = ("", "", Some err) /\
    Error err = "read dir " ++ "/locked" ++ ": "
                ++ Error (errorString "open /locked: permission denied") /\
    Unwrap err = Some (errorString "open /locked: permission denied").
Proof.
  exact (unreadable_directory_error Hosts.restricted [] []
           {| Path := "/locked/"; IncludeSubdirs := false |} []
           (errorString "open /locked: permission denied")
           eq_refl eq_refl eq_refl eq_refl eq_refl).
Defined.

(** X4.  A target whose cleaned path has a glob character and is not a
    well-formed pattern makes [GetVersionMetadata] fail, once the
    targets before it have resolved, with an error that wraps the error
    of the expansion and whose message is [invalid glob], the pattern
    and the message of the expansion. *)
Theorem invalid_glob_error :
  forall (w : World) (before after : list PathTarget) (t : PathTarget)
         (resolved : list string) (e : error),
    let p := filepath.Clean (Path t) in
    strings.ContainsAny p "*?[" = true ->
    glob w p = inl e ->
    eval w (rangeTargets before []) = inr resolved ->
    exists err,
      eval w (GetVersionMetadata (before ++ t :: after)) = ("", "", Some err) /\
      Error err = "invalid glob " ++ p ++ ": " ++ Error e /\
      Unwrap err = Some e.
Proof.
  intros w before after t resolved e p Hmeta Hglob Hbefore.
  exists (fmt.Errorf "invalid glob %s: %w" [fmt.Str p; fmt.Err e]).
  split; [| split; [simpl; rewrite append_empty_r; reflexivity | reflexivity]].
  assert (Ht : eval w (targetBody t resolved) =
               inl ("", "", Some (fmt.Errorf "invalid glob %s: %w" [fmt.Str p; fmt.Err e]))).
  { unfold targetBody. fold p. rewrite Hmeta, eval_bind, eval_Glob, Hglob. reflexivity. }
  destruct (rangeTargets_stops w before t after resolved _ Hbefore Ht) as [Hval _].
  apply (GetVersionMetadata_unresolved w _ _ Hval).
Qed.

Lemma invalid_glob_error_witness :
  exists err,
    eval Hosts.restricted (GetVersionMetadata [{| Path := "/td/["; IncludeSubdirs := false |}])
    = ("", "", Some err) /\
    Error err = "invalid glob " ++ "/td/[" ++ ": " ++ Error (errorString "syntax error in pattern") /\
    Unwrap err = Some (errorString "syntax error in pattern").
Proof.
  exact (invalid_glob_error Hosts.restricted [] []
           {| Path := "/td/["; IncludeSubdirs := false |} []
           (errorString "syntax error in pattern") eq_refl eq_refl eq_refl).
Defined.

(** ** Nothing to inspect *)

Lemma rangeEntries_only_directories dir entries resolved :
  forallb de_IsDir entries = true -> rangeEntries dir entries resolved = resolved.
Proof.
  intros Hdirs. rewrite rangeEntries_spec.
  replace (filter (fun e => negb (de_IsDir e)) entries) with (@nil DirEntry).
  - apply app_nil_r.
  - induction entries as [| e entries IH]; [reflexivity |].
    simpl in Hdirs. apply andb_true_iff in Hdirs as [He Hrest].
    simpl. rewrite He. simpl. apply IH, Hrest.
Qed.

(** X5.  A single literal directory target without [IncludeSubdirs]
    whose directory holds no file (it is empty or holds only
    directories) makes [GetVersionMetadata] fail with the error [no
    files to inspect]; the directory is classified and listed, its
    directories are not entered and git is not run. *)
Theorem directory_without_files_is_an_error :
  forall (w : World) (t : PathTarget) (entries : list DirEntry),
    let p := filepath.Clean (Path t) in
    strings.ContainsAny p "*?[" = false ->
    stat w p = inr {| fi_IsDir := true |} ->
    IncludeSubdirs t = false ->
    readDir w p = inr entries ->
    forallb de_IsDir entries = true ->
    run w (GetVersionMetadata [t]) = (("", "", Some errNoFiles), [StatOp p; ReadDirOp p]) /\
    Error errNoFiles = "no files to inspect".
Proof.
  intros w t entries p Hmeta Hstat Hflag Hread Hdirs.
  split; [| reflexivity].
  assert (Hbody : run w (targetBody t []) = (inr [], [StatOp p; ReadDirOp p])).
  { unfold targetBody. fold p. rewrite Hmeta. simpl. rewrite Hstat, Hflag. simpl.
    rewrite Hread. simpl. rewrite rangeEntries_only_directories by exact Hdirs. reflexivity. }
  rewrite run_pair. unfold GetVersionMetadata.
  rewrite eval_returned, trace_returned, eval_andThen, trace_andThen.
  unfold resolveTargets, rangeTargets. cbn [List.length Nat.eqb].
  rewrite eval_forRange_one.
  assert (Htr : trace w (forRange [t] targetBody []) = [StatOp p; ReadDirOp p]).
  { simpl. rewrite trace_andThen. unfold eval, trace. rewrite Hbody. reflexivity. }
  assert (Hval : eval w (targetBody t []) = inr []) by (unfold eval; rewrite Hbody; reflexivity).
  rewrite Htr, !Hval. reflexivity.
Qed.

Lemma directory_without_files_is_an_error_witness :
  run Hosts.onlySubdirs (GetVersionMetadata [{| Path := "/td"; IncludeSubdirs := false |}])
  = (("", "", Some errNoFiles), [StatOp "/td"; ReadDirOp "/td"]) /\
  Error errNoFiles = "no files to inspect".
Proof.
  exact (directory_without_files_is_an_error Hosts.onlySubdirs
           {| Path := "/td"; IncludeSubdirs := false |}
           [Scenario.dir ".git"; Scenario.dir "sub"]
           eq_refl eq_refl eq_refl eq_refl eq_refl).
Defined.

(** ** The resolved list is built target by target *)

Lemma forRange_extend {A : Type} w (body : A -> list string -> Body Result (list string)) :
  (forall x acc, eval w (body x acc) = extend acc (eval w (body x []))) ->
  forall xs acc, eval w (forRange xs body acc) = extend acc (eval w (forRange xs body [])).
Proof.
  intros Hbody xs. induction xs as [| x xs IH]; intros acc; simpl.
  - rewrite app_nil_r. reflexivity.
  - rewrite !eval_andThen, (Hbody x acc).
    destruct (eval w (body x [])) as [r | l]; simpl; [reflexivity |].
    rewrite (IH (acc ++ l)%list), (IH l).
    destruct (eval w (forRange xs body [])) as [r | l']; simpl; [reflexivity |].
    rewrite app_assoc. reflexivity.
Qed.

Lemma matchBody_extend w t m acc :
  eval w (matchBody t m acc) = extend acc (eval w (matchBody t m [])).
Proof.
  unfold matchBody. rewrite !eval_bind, !eval_Stat.
  destruct (stat w m) as [e | info]; [reflexivity |].
  destruct (fi_IsDir info); [| reflexivity].
  destruct (IncludeSubdirs t); [reflexivity |].
  rewrite !eval_bind, !eval_ReadDir.
  destruct (readDir w m) as [e | entries]; [reflexivity |].
  unfold Next, eval. simpl. rewrite !rangeEntries_spec. reflexivity.
Qed.

Lemma targetBody_extend w t acc :
  eval w (targetBody t acc) = extend acc (eval w (targetBody t [])).
Proof.
  unfold targetBody. destruct (strings.ContainsAny (filepath.Clean (Path t)) "*?[").
  - rewrite !eval_bind, !eval_Glob.
    destruct (glob w (filepath.Clean (Path t))) as [e | matches]; [reflexivity |].
    destruct (List.length matches =? 0)%nat; [reflexivity |].
    apply forRange_extend. intros. apply matchBody_extend.
  - rewrite !eval_bind, !eval_Stat.
    destruct (stat w (filepath.Clean (Path t))) as [e | info]; [reflexivity |].
    destruct (fi_IsDir info); [| reflexivity].
    destruct (IncludeSubdirs t); [reflexivity |].
    rewrite !eval_bind, !eval_ReadDir.
    destruct (readDir w (filepath.Clean (Path t))) as [e | entries]; [reflexivity |].
    unfold Next, eval. simpl. rewrite !rangeEntries_spec. reflexivity.
Qed.

Lemma rangeTargets_extend w targets acc :
  eval w (rangeTargets targets acc) = extend acc (eval w (rangeTargets targets [])).
Proof. apply forRange_extend. intros. apply targetBody_extend. Qed.

(** X6.  The resolved list of a list of targets is the concatenation, in
    order, of the resolved lists of its parts: what a target contributes
    does not depend on the targets before it, nothing is reordered and
    no duplicate is removed.  When a part fails, the whole fails with
    the failure of the first such part. *)
Theorem resolution_concatenates :
  forall (w : World) (first second : list PathTarget),
    first <> [] -> second <> [] ->
    eval w (resolveTargets (first ++ second)) =
    match eval w (resolveTargets first) with
    | inl r => inl r
    | inr resolved1 =>
        match eval w (resolveTargets second) with
        | inl r => inl r
        | inr resolved2 => inr (resolved1 ++ resolved2)%list
        end
    end.
Proof.
  intros w first second H1 H2.
  rewrite !resolveTargets_nonempty; try assumption.
  - unfold rangeTargets at 1. rewrite eval_forRange_app.
    fold (rangeTargets first []). destruct (eval w (rangeTargets first [])) as [r | l1];
      [reflexivity |].
    fold (rangeTargets second l1). rewrite rangeTargets_extend. reflexivity.
  - destruct first; [congruence | discriminate].
Qed.

Lemma resolution_concatenates_witness :
  eval Scenario.nested
    (resolveTargets ([{| Path := "/td/root.txt"; IncludeSubdirs := false |}]
                     ++ [{| Path := "/td"; IncludeSubdirs := false |};
                         {| Path := "/td/sub"; IncludeSubdirs := true |}]))
  = inr (["/td/root.txt"] ++ ["/td/root.txt"; "/td/sub"])%list.
Proof.
  exact (resolution_concatenates Scenario.nested
           [{| Path := "/td/root.txt"; IncludeSubdirs := false |}]
           [{| Path := "/td"; IncludeSubdirs := false |};
            {| Path := "/td/sub"; IncludeSubdirs := true |}]
           ltac:(discriminate) ltac:(discriminate)).
Defined.

(** ** The three queries *)

Lemma gitCmd_record dir args :
  gitCmd dir args = {| cmd_Name := "git"; cmd_Args := args; cmd_Dir := dir |}.
Proof.
  unfold gitCmd, exec.setDir, exec.Command. simpl.
  destruct (dir =? "") eqn:E; simpl; [| reflexivity].
  apply String.eqb_eq in E. subst dir. reflexivity.
Qed.

Lemma run_chooseWorkDir w first rest :
  run w (chooseWorkDir (first :: rest)) =
  (match stat w first with
   | inr info => if fi_IsDir info then first else filepath.Dir first
   | inl _ => first
   end, [StatOp first]).
Proof.
  unfold chooseWorkDir. simpl.
  destruct (stat w first) as [e | info]; [reflexivity |].
  destruct (fi_IsDir info); reflexivity.
Qed.

(** The run of the second half of [GetVersionMetadata], by the answers
    to its queries: it stops at the first query that fails. *)
Lemma run_queryVersion w first rest :
  let resolved := first :: rest in
  let workDir := workDirIn w resolved in
  let hash := runCmd w (gitCmd workDir (argsHash resolved)) in
  let date := runCmd w (gitCmd workDir (argsDate resolved)) in
  let history := runCmd w (gitCmd workDir (argsCount resolved)) in
  run w (queryVersion resolved) =
  match snd hash with
  | Some e =>
      (inl ("", "", Some (fmt.Errorf "git log hash: %w" [fmt.Err e])),
       StatOp first :: firstn 1 (queryOps workDir resolved))
  | None =>
      match snd date with
      | Some e =>
          (inl ("", "", Some (fmt.Errorf "git log date: %w" [fmt.Err e])),
           StatOp first :: firstn 2 (queryOps workDir resolved))
      | None =>
          match snd history with
          | Some e =>
              (inl ("", "", Some (fmt.Errorf "git log count: %w" [fmt.Err e])),
               StatOp first :: queryOps workDir resolved)
          | None =>
              (inl (commitDateOf (strings.TrimSpace (fst date))
                      (suffixOf (countSameDate (strings.TrimSpace (fst history))
                                   (strings.TrimSpace (fst date)))),
                    strings.TrimSpace (fst hash), None),
               StatOp first :: queryOps workDir resolved)
          end
      end
  end.
Proof.
  intros resolved workDir hash date history.
  unfold queryVersion. change (List.length resolved =? 0)%nat with false. cbv iota.
  rewrite run_bind. fold (workDirIn w resolved). fold workDir.
  assert (Htr : trace w (chooseWorkDir resolved) = [StatOp first])
    by (unfold trace, resolved; rewrite run_chooseWorkDir; reflexivity).
  rewrite Htr. unfold gitOutputIn, exec.Run, eval, trace, queryOps.
  cbn [bind run app firstn]. fold hash. destruct hash as [out1 [e1 |]]; [reflexivity |].
  cbn [bind run app fst snd]. fold date. destruct date as [out2 [e2 |]]; [reflexivity |].
  cbn [bind run app fst snd]. fold history. destruct history as [out3 [e3 |]]; reflexivity.
Qed.

Lemma resolved_run w targets resolved :
  eval w (resolveTargets targets) = inr resolved ->
  run w (GetVersionMetadata targets) =
  (match eval w (queryVersion resolved) with inl r => r | inr r => r end,
   (trace w (resolveTargets targets) ++ trace w (queryVersion resolved))%list).
Proof.
  intros Hres. rewrite run_pair. unfold GetVersionMetadata.
  rewrite eval_returned, trace_returned, eval_andThen, trace_andThen, Hres. reflexivity.
Qed.

(** X7.  On a run in which the targets resolve and the three queries
    succeed, the calls after the resolution are: the classification of
    the first resolved path, then [git log] for the hash, for the date
    and for the dates of the history.  The three commands run in one
    directory (the first resolved path when it is a directory or cannot
    be examined, its directory when it is a file) and are given the same
    list of paths, the resolved list as it is, after [--]. *)
Theorem queries_share_directory_and_paths :
  forall (w : World) (targets : list PathTarget) (resolved : list string)
         (commitHash date history : string),
    Queried w targets resolved commitHash date history ->
    let first := nth 0 resolved "" in
    let workDir :=
      match stat w first with
      | inr info => if fi_IsDir info then first else filepath.Dir first
      | inl _ => first
      end in
    let git args := RunOp {| cmd_Name := "git"; cmd_Args := args; cmd_Dir := workDir |} in
    trace w (GetVersionMetadata targets) =
    (trace w (resolveTargets targets)
     ++ [StatOp first;
         git (["log"; "-n"; "1"; "--pretty=format:%h"; "--"] ++ resolved);
         git (["log"; "-n"; "1"; "--date=format:%Y-%m-%d"; "--pretty=format:%cd"; "--"]
              ++ resolved);
         git (["log"; "--date=format:%Y-%m-%d"; "--pretty=format:%cd"; "--"] ++ resolved)])%list.
Proof.
  intros w targets resolved commitHash date history [Hres Hne Hhash Hdate Hhist]
    first workDir git.
  destruct resolved as [| p rest]; [congruence |].
  assert (Hwd : workDirIn w (p :: rest) = workDir)
    by (unfold workDirIn, eval; rewrite run_chooseWorkDir; reflexivity).
  fold (workDirIn w (p :: rest)) in Hhash, Hdate, Hhist.
  rewrite eval_gitOutputIn in Hhash, Hdate, Hhist.
  injection Hhash as _ Hhash. injection Hdate as _ Hdate. injection Hhist as _ Hhist.
  unfold trace at 1. rewrite (resolved_run w targets (p :: rest) Hres). cbn [snd].
  unfold trace at 2. rewrite run_queryVersion. cbv zeta.
  rewrite Hhash, Hdate, Hhist. cbn [snd]. unfold queryOps.
  rewrite Hwd, !gitCmd_record. reflexivity.
Qed.

Lemma relative_file_is_queried :
  Queried Hosts.relative [{| Path := "sub/main.go"; IncludeSubdirs := false |}]
    ["sub/main.go"] "0a1b2c3" "2025-09-14" "2025-09-14".
Proof. queried. Defined.

Lemma queries_share_directory_and_paths_witness :
  trace Hosts.relative (GetVersionMetadata [{| Path := "sub/main.go"; IncludeSubdirs := false |}])
  = [StatOp "sub/main.go"; StatOp "sub/main.go";
     RunOp {| cmd_Name := "git";
              cmd_Args := ["log"; "-n"; "1"; "--pretty=format:%h"; "--"; "sub/main.go"];
              cmd_Dir := "sub" |};
     RunOp {| cmd_Name := "git";
              cmd_Args := ["log"; "-n"; "1"; "--date=format:%Y-%m-%d"; "--pretty=format:%cd";
                           "--"; "sub/main.go"];
              cmd_Dir := "sub" |};
     RunOp {| cmd_Name := "git";
              cmd_Args := ["log"; "--date=format:%Y-%m-%d"; "--pretty=format:%cd"; "--";
                           "sub/main.go"];
              cmd_Dir := "sub" |}].
Proof.
  exact (queries_share_directory_and_paths _ _ _ _ _ _ relative_file_is_queried).
Defined.

(** X8.  When the targets resolve to a non-empty list and a query
    fails, [GetVersionMetadata] returns an error that wraps the error of
    the run and whose message is the name of the query ([git log hash],
    [git log date], [git log count]) and the message of that error; the
    text the command printed is not part of the result, and the later
    queries are not run. *)
Theorem failed_query_is_wrapped_and_stops :
  forall (w : World) (targets : list PathTarget) (resolved : list string),
    eval w (resolveTargets targets) = inr resolved ->
    resolved <> [] ->
    let workDir := workDirIn w resolved in
    let before := (trace w (resolveTargets targets) ++ [StatOp (nth 0 resolved "")])%list in
    let answer args := runCmd w (gitCmd workDir (args resolved)) in
    let wrapped name e := wrapError (name ++ ": " ++ Error e) e in
    (forall out e,
        answer argsHash = (out, Some e) ->
        run w (GetVersionMetadata targets) =
        (("", "", Some (wrapped "git log hash" e)),
         (before ++ firstn 1 (queryOps workDir resolved))%list)) /\
    (forall out e,
        snd (answer argsHash) = None ->
        answer argsDate = (out, Some e) ->
        run w (GetVersionMetadata targets) =
        (("", "", Some (wrapped "git log date" e)),
         (before ++ firstn 2 (queryOps workDir resolved))%list)) /\
    (forall out e,
        snd (answer argsHash) = None ->
        snd (answer argsDate) = None ->
        answer argsCount = (out, Some e) ->
        run w (GetVersionMetadata targets) =
        (("", "", Some (wrapped "git log count" e)),
         (before ++ queryOps workDir resolved)%list)).
Proof.
  intros w targets resolved Hres Hne workDir before answer wrapped.
  destruct resolved as [| p rest]; [congruence |].
  rewrite (resolved_run w targets (p :: rest) Hres).
  unfold eval at 1 2 3. unfold trace at 2 4 6. rewrite run_queryVersion. cbv zeta.
  fold workDir. unfold before, answer, wrapped. cbn [nth].
  repeat split.
  - intros out e H. rewrite H. cbn [fst snd].
    change (fmt.Errorf "git log hash: %w" [fmt.Err e])
      with (wrapError ("git log hash: " ++ Error e ++ "") e).
    rewrite append_empty_r, <- app_assoc. reflexivity.
  - intros out e H1 H2. rewrite H1, H2. cbn [fst snd].
    change (fmt.Errorf "git log date: %w" [fmt.Err e])
      with (wrapError ("git log date: " ++ Error e ++ "") e).
    rewrite append_empty_r, <- app_assoc. reflexivity.
  - intros out e H1 H2 H3. rewrite H1, H2, H3. cbn [fst snd].
    change (fmt.Errorf "git log count: %w" [fmt.Err e])
      with (wrapError ("git log count: " ++ Error e ++ "") e).
    rewrite append_empty_r, <- app_assoc. reflexivity.
Qed.

Lemma failed_query_is_wrapped_and_stops_witness :
  run (Hosts.queriesUpTo 1)
    (GetVersionMetadata [{| Path := "/td/a.txt"; IncludeSubdirs := false |}])
  = (("", "", Some (wrapError "git log date: exit status 128" (errorString "exit status 128"))),
     [StatOp "/td/a.txt"; StatOp "/td/a.txt";
      RunOp (gitCmd "/td" (argsHash ["/td/a.txt"]));
      RunOp (gitCmd "/td" (argsDate ["/td/a.txt"]))]).
Proof.
  exact (proj1 (proj2 (failed_query_is_wrapped_and_stops (Hosts.queriesUpTo 1)
                         [{| Path := "/td/a.txt"; IncludeSubdirs := false |}] ["/td/a.txt"]
                         eq_refl ltac:(discriminate)))
           "fatal: not a git repository" (errorString "exit status 128") eq_refl eq_refl).
Defined.

(** ** What GetVersionMetadata runs *)

Lemma logQuery_gitCmd dir base resolved :
  In base [baseArgsHash; baseArgsDate; baseArgsCount] ->
  logQuery (RunOp (gitCmd dir (base ++ resolved)%list)).
Proof.
  intros Hbase. rewrite gitCmd_record. simpl. split; [reflexivity |].
  exists base, resolved. split; [exact Hbase | reflexivity].
Qed.

Lemma chooseWorkDir_logs resolved :
  Post logQuery (fun _ => True) (chooseWorkDir resolved).
Proof.
  unfold chooseWorkDir, os.Stat.
  destruct (0 <? List.length resolved)%nat; [| constructor; exact I].
  simpl. constructor; [exact I |].
  intros [e | info]; [| destruct (negb (fi_IsDir info))]; constructor; exact I.
Qed.

Lemma queryVersion_logs resolved :
  Post logQuery (fun _ => True) (queryVersion resolved).
Proof.
  unfold queryVersion.
  destruct (List.length resolved =? 0)%nat; [constructor; exact I |].
  eapply Post_bind; [apply chooseWorkDir_logs |]. intros workDir _.
  unfold gitOutputIn, exec.Run. simpl.
  constructor; [apply logQuery_gitCmd; simpl; auto |]. intros [out1 [e1 |]]; simpl;
    [constructor; exact I |].
  constructor; [apply logQuery_gitCmd; simpl; auto |]. intros [out2 [e2 |]]; simpl;
    [constructor; exact I |].
  constructor; [apply logQuery_gitCmd; simpl; auto |]. intros [out3 [e3 |]]; simpl;
    constructor; exact I.
Qed.

Lemma GetVersionMetadata_logs targets :
  Post logQuery (fun _ => True) (GetVersionMetadata targets).
Proof.
  unfold GetVersionMetadata, returned.
  eapply Post_bind with (Q1 := fun _ => True).
  - unfold andThen. eapply Post_bind with (Q1 := fun _ => True).
    + eapply Post_weaken; [| | apply resolveTargets_post].
      * intros [| | |cmd] H; try exact I. discriminate H.
      * intros; exact I.
    + intros [r | resolved] _; [constructor; exact I | apply queryVersion_logs].
  - intros [r | r] _; constructor; exact I.
Qed.

(** X9.  Whatever the targets and the host, every subprocess that
    [GetVersionMetadata] starts is [git log] with the options of one of
    its three queries, then [--], then paths: it runs no other program
    and no other git command, and a path is never in the place of an
    option. *)
Theorem only_git_log_is_run :
  forall (w : World) (targets : list PathTarget) (cmd : Cmd),
    In (RunOp cmd) (trace w (GetVersionMetadata targets)) ->
    cmd_Name cmd = "git" /\
    exists opts paths,
      In opts [["-n"; "1"; "--pretty=format:%h"];
               ["-n"; "1"; "--date=format:%Y-%m-%d"; "--pretty=format:%cd"];
               ["--date=format:%Y-%m-%d"; "--pretty=format:%cd"]] /\
      cmd_Args cmd = ("log" :: opts ++ "--" :: paths)%list.
Proof.
  intros w targets cmd Hin.
  destruct (Post_run w _ _ _ (GetVersionMetadata_logs targets)) as [_ Hall].
  rewrite Forall_forall in Hall. specialize (Hall _ Hin).
  destruct Hall as [Hname (base & paths & Hbase & Hargs)].
  split; [exact Hname |]. rewrite Hargs.
  destruct Hbase as [<- | [<- | [<- | []]]].
  - exists ["-n"; "1"; "--pretty=format:%h"], paths. simpl. auto.
  - exists ["-n"; "1"; "--date=format:%Y-%m-%d"; "--pretty=format:%cd"], paths. simpl. auto.
  - exists ["--date=format:%Y-%m-%d"; "--pretty=format:%cd"], paths. simpl. auto.
Qed.

Lemma only_git_log_is_run_witness :
  cmd_Name (gitCmd "/td" (argsDate ["/td/a.txt"])) = "git" /\
  exists opts paths,
    In opts [["-n"; "1"; "--pretty=format:%h"];
             ["-n"; "1"; "--date=format:%Y-%m-%d"; "--pretty=format:%cd"];
             ["--date=format:%Y-%m-%d"; "--pretty=format:%cd"]] /\
    cmd_Args (gitCmd "/td" (argsDate ["/td/a.txt"])) = ("log" :: opts ++ "--" :: paths)%list.
Proof.
  apply (only_git_log_is_run Scenario.singleFile
           [{| Path := "/td/a.txt"; IncludeSubdirs := false |}]).
  vm_compute. right. right. right. left. reflexivity.
Defined.

(** ** When the sync check passes *)

Lemma firstFailure_none checks :
  fst (firstFailure checks) = None <-> Forall (fun c => snd c = None) checks.
Proof.
  induction checks as [| [calls [e |]] checks IH]; simpl.
  - split; [constructor | reflexivity].
  - split; [discriminate | intros H; inversion H; assumption].
  - destruct (firstFailure checks) as [r tr]. simpl in *. rewrite IH.
    split; [intros H; constructor; [reflexivity | exact H] | intros H; inversion H; assumption].
Qed.

Lemma failsIf_none b err : failsIf b err = None <-> b = false.
Proof. destruct b; simpl; split; intros H; try reflexivity; discriminate H. Qed.

Lemma not_differs (s t : string) : negb (s =? t) = false <-> s = t.
Proof. rewrite negb_false_iff. apply String.eqb_eq. Qed.

Lemma two_zero_fields (parts : list string) :
  (negb (List.length parts =? 2)%nat = false /\
   negb (nth 0 parts "" =? "0") = false /\
   negb (nth 1 parts "" =? "0") = false) <-> parts = ["0"; "0"].
Proof.
  split.
  - intros (Hlen & H0 & H1). destruct (two_fields parts Hlen) as (b & a & ->).
    simpl in H0, H1. apply negb_false_iff in H0, H1.
    apply String.eqb_eq in H0, H1. subst. reflexivity.
  - intros ->. repeat split.
Qed.

(** X10.  The sync check returns no error exactly when the four git
    commands succeed, the ahead/behind output has exactly the two fields
    0 and 0, and the status output is blank. *)
Theorem sync_passes_iff_clean_and_synced :
  forall w : World,
    eval w AssertBranchIsCleanAndSynced = None <->
    (succeeds w argsRevParse /\
     succeeds w (argsFetch (branchIn w)) /\
     succeeds w (argsRevList (branchIn w)) /\
     partsIn w = ["0"; "0"] /\
     succeeds w argsStatus /\
     strings.TrimSpace (fst (eval w (gitOutput argsStatus))) = "").
Proof.
  intros w. unfold eval at 1. rewrite sync_first_failure, firstFailure_none.
  unfold syncChecks, succeeds. rewrite <- two_zero_fields.
  repeat rewrite Forall_cons_iff. cbn [snd]. rewrite !failsIf_none.
  rewrite (not_differs (strings.TrimSpace (fst (eval w (gitOutput argsStatus)))) "").
  intuition auto.
Qed.

Lemma sync_passes_iff_clean_and_synced_witness :
  eval (Scenario.syncHost "main" ("0" ++ String "009" "0") "") AssertBranchIsCleanAndSynced
  = None.
Proof.
  apply (proj2 (sync_passes_iff_clean_and_synced
                  (Scenario.syncHost "main" ("0" ++ String "009" "0") ""))).
  repeat split; vm_compute; reflexivity.
Defined.

(** X11.  When a git command of the sync check fails, the check returns
    the error of that run as it is, without a message of its own and
    without the text the command printed, and runs no later command. *)
Theorem sync_returns_the_error_of_git :
  forall (w : World) (out : string) (e : error),
    (runCmd w (gitCmd "" argsRevParse) = (out, Some e) ->
     run w AssertBranchIsCleanAndSynced = (Some e, [gitOp argsRevParse])) /\
    (succeeds w argsRevParse ->
     runCmd w (gitCmd "" (argsFetch (branchIn w))) = (out, Some e) ->
     run w AssertBranchIsCleanAndSynced =
     (Some e, [gitOp argsRevParse; gitOp (argsFetch (branchIn w))])) /\
    (succeeds w argsRevParse -> succeeds w (argsFetch (branchIn w)) ->
     runCmd w (gitCmd "" (argsRevList (branchIn w))) = (out, Some e) ->
     run w AssertBranchIsCleanAndSynced =
     (Some e, [gitOp argsRevParse; gitOp (argsFetch (branchIn w));
               gitOp (argsRevList (branchIn w))])) /\
    (succeeds w argsRevParse -> succeeds w (argsFetch (branchIn w)) ->
     succeeds w (argsRevList (branchIn w)) -> partsIn w = ["0"; "0"] ->
     runCmd w (gitCmd "" argsStatus) = (out, Some e) ->
     run w AssertBranchIsCleanAndSynced =
     (Some e, [gitOp argsRevParse; gitOp (argsFetch (branchIn w));
               gitOp (argsRevList (branchIn w)); gitOp argsStatus])).
Proof.
  intros w out e. rewrite sync_first_failure. unfold syncChecks, succeeds, eval.
  rewrite !run_gitOutput. cbn [fst snd].
  repeat split.
  - intros H. rewrite H. reflexivity.
  - intros H1 H. cbn [firstFailure]. rewrite H1, H. reflexivity.
  - intros H1 H2 H. cbn [firstFailure]. rewrite H1, H2, H. reflexivity.
  - intros H1 H2 H3 Hparts H. cbn [firstFailure]. rewrite H1, H2, H3, H.
    unfold partsIn, branchIn, eval in Hparts. rewrite !run_gitOutput in Hparts.
    cbn [fst snd] in Hparts. unfold partsIn, branchIn, eval. rewrite !run_gitOutput.
    cbn [fst snd]. rewrite Hparts. reflexivity.
Qed.

Lemma sync_returns_the_error_of_git_witness :
  run Scenario.nested AssertBranchIsCleanAndSynced
  = (Some (errorString "exit status 128"), [gitOp argsRevParse]).
Proof.
  exact (proj1 (sync_returns_the_error_of_git Scenario.nested
                  "fatal: not a git repository" (errorString "exit status 128")) eq_refl).
Defined.

(** ** The date that is returned *)

Lemma prefix_append (s t : string) : String.prefix s (s ++ t) = true.
Proof.
  induction s as [| c s IH]; simpl.
  - destruct t; reflexivity.
  - destruct (ascii_dec c c); [exact IH | congruence].
Qed.

Lemma commitDateOf_cases date suffix :
  commitDateOf date suffix = date \/
  (suffix <> "" /\ suffix <> "a" /\ commitDateOf date suffix = date ++ "-" ++ suffix).
Proof.
  destruct (string_dec suffix "") as [-> | Hempty]; [left; reflexivity |].
  destruct (string_dec suffix "a") as [-> | Ha]; [left; reflexivity |].
  right. repeat split; try assumption. apply commitDateOf_suffixed; assumption.
Qed.

(** X12.  Whenever the targets resolve and the three queries succeed,
    for every number of lines of the history, the hash returned is the
    trimmed output of the hash query and the date returned begins with
    the trimmed output of the date query: it is that date, or that date,
    a hyphen and a suffix that is not empty. *)
Theorem commit_date_begins_with_the_date :
  forall (w : World) (targets : list PathTarget) (resolved : list string)
         (commitHash date history : string),
    Queried w targets resolved commitHash date history ->
    exists commitDate,
      eval w (GetVersionMetadata targets) = (commitDate, commitHash, None) /\
      String.prefix date commitDate = true /\
      (commitDate = date \/ exists suffix, suffix <> "" /\ commitDate = date ++ "-" ++ suffix).
Proof.
  intros w targets resolved commitHash date history HQ.
  rewrite (GetVersionMetadata_queried _ _ _ _ _ _ HQ).
  eexists. split; [reflexivity |].
  destruct (commitDateOf_cases date (suffixOf (countSameDate history date)))
    as [-> | (Hempty & _ & ->)].
  - split; [| left; reflexivity].
    rewrite <- (append_empty_r date) at 2. apply prefix_append.
  - split; [apply prefix_append |]. right. eexists. split; [exact Hempty | reflexivity].
Qed.

Lemma commit_date_begins_with_the_date_witness :
  exists commitDate,
    eval (Scenario.commitsOnOneDay 3)
      (GetVersionMetadata [{| Path := "/td/b.txt"; IncludeSubdirs := false |}])
    = (commitDate, "9c0de41", None) /\
    String.prefix "2025-09-11" commitDate = true /\
    (commitDate = "2025-09-11" \/
     exists suffix, suffix <> "" /\ commitDate = "2025-09-11" ++ "-" ++ suffix).
Proof.
  exact (commit_date_begins_with_the_date _ _ _ _ _ _ queried_three).
Defined.

(** X13.  When the targets resolve and the three queries succeed but
    print nothing, as git does for a path that no commit touches,
    [GetVersionMetadata] reports no error: it returns an empty date and
    an empty hash. *)
Theorem no_history_is_not_an_error :
  forall (w : World) (targets : list PathTarget) (resolved : list string),
    Queried w targets resolved "" "" "" ->
    eval w (GetVersionMetadata targets) = ("", "", None).
Proof.
  intros w targets resolved HQ.
  rewrite (GetVersionMetadata_queried _ _ _ _ _ _ HQ). reflexivity.
Qed.

Lemma untracked_file_is_queried :
  Queried Hosts.untracked [{| Path := "/td/new.txt"; IncludeSubdirs := false |}]
    ["/td/new.txt"] "" "" "".
Proof. queried. Defined.

Lemma no_history_is_not_an_error_witness :
  eval Hosts.untracked (GetVersionMetadata [{| Path := "/td/new.txt"; IncludeSubdirs := false |}])
  = ("", "", None).
Proof. exact (no_history_is_not_an_error _ _ _ untracked_file_is_queried). Defined.

(** ** The letters of the suffix *)

Lemma encode_single r c :
  utf8.encode r = String c "" -> (0 <= r <= 127)%Z /\ c = ofByte r.
Proof.
  intros H.
  destruct (Z.leb_spec 0 r) as [Hlo |]; [destruct (Z.leb_spec r 127) as [Hhi |] |].
  - rewrite encode_ascii in H by lia. injection H as H. split; [lia | congruence].
  - exfalso. revert H. unfold utf8.encode.
    repeat match goal with |- context [if ?b then _ else _] => destruct b eqn:? end;
      try discriminate.
    all: match goal with H : (_ <=? 127)%Z = true |- _ => apply Z.leb_le in H end.
    all: lia.
  - exfalso. revert H. unfold utf8.encode.
    replace ((0 <=? r) && (r <=? 0x10FFFF) && negb ((0xD800 <=? r) && (r <=? 0xDFFF)))%Z
      with false; [vm_compute; discriminate |].
    symmetry. destruct (Z.leb_spec 0 r); [lia | reflexivity].
Qed.

Lemma rune_beyond_z count :
  (27 <= count <= 2 ^ 32)%Z ->
  ~ (97 <= int32 (byte "a" + count - 1) <= 122)%Z.
Proof.
  intros Hc. unfold int32, int.wrap. change (byte "a") with 97%Z.
  change (2 ^ (32 - 1))%Z with 2147483648%Z.
  change (2 ^ 32)%Z with 4294967296%Z in *.
  intros H.
  pose proof (Z.mod_pos_bound (97 + count - 1 + 2147483648) 4294967296 eq_refl) as Hr.
  pose proof (Z.div_mod (97 + count - 1 + 2147483648) 4294967296) as Hq.
  lia.
Qed.

(** X14.  For a count of at most [2^32] lines, the suffix computed in
    lines 141-145 is a single lowercase letter exactly when the count is
    from 2 to 26: below there is no suffix, and from the 27th commit of a
    day on the character after the hyphen is no letter any more. *)
Theorem suffix_is_a_letter_exactly_from_2_to_26 :
  forall count : Z,
    (count <= 2 ^ 32)%Z ->
    (isLowerLetter (suffixOf count) <-> (2 <= count <= 26)%Z).
Proof.
  intros count Hc. split.
  - intros (c & Hs & Hletter).
    destruct (Z.le_gt_cases count 1) as [Hlow | Htwo].
    { rewrite suffixOf_below_two in Hs by exact Hlow. discriminate Hs. }
    destruct (Z.le_gt_cases count 26) as [Hsmall | Hbig]; [lia |].
    exfalso. apply (rune_beyond_z count); [lia |].
    rewrite suffixOf_rune in Hs.
    + apply encode_single in Hs as [Hr ->].
      rewrite byte_ofByte in Hletter by lia.
      change (byte "a") with 97%Z in Hletter at 1. change (byte "z") with 122%Z in Hletter.
      exact Hletter.
    + change (2 ^ 32)%Z with 4294967296%Z in Hc.
      change (2 ^ 63)%Z with 9223372036854775808%Z. lia.
  - intros Hrange. exists (ofByte (byte "a" + (count - 1))). split.
    + apply suffixOf_letter, Hrange.
    + rewrite byte_ofByte; change (byte "a") with 97%Z; change (byte "z") with 122%Z; lia.
Qed.

Lemma suffix_is_a_letter_exactly_from_2_to_26_witness :
  ~ isLowerLetter (suffixOf 27) /\ isLowerLetter (suffixOf 26).
Proof.
  split.
  - intros H.
    pose proof (proj1 (suffix_is_a_letter_exactly_from_2_to_26 27 ltac:(vm_compute; discriminate))
                  H) as Hr.
    lia.
  - apply (proj2 (suffix_is_a_letter_exactly_from_2_to_26 26 ltac:(vm_compute; discriminate))).
    lia.
Defined.

(** ** No target, and the matches of a glob *)

(** X15.  Called without targets, [GetVersionMetadata] runs as for the
    one target [.] without [IncludeSubdirs]: when the current directory
    can be listed, the paths handed to git are its entries that are not
    directories, and the directories in it are left out. *)
Theorem no_target_means_files_of_current_directory :
  forall (w : World) (entries : list DirEntry),
    stat w "." = inr {| fi_IsDir := true |} ->
    readDir w "." = inr entries ->
    run w (GetVersionMetadata []) =
    run w (GetVersionMetadata [{| Path := "."; IncludeSubdirs := false |}]) /\
    run w (resolveTargets []) =
    (inr (map (fun e => filepath.Join ["."; de_Name e])
            (filter (fun e => negb (de_IsDir e)) entries)),
     [StatOp "."; ReadDirOp "."]).
Proof.
  intros w entries Hstat Hread. split; [reflexivity |].
  unfold resolveTargets, rangeTargets. cbn [List.length Nat.eqb forRange].
  rewrite run_pair, eval_andThen, trace_andThen.
  assert (Hbody : run w (targetBody {| Path := "."; IncludeSubdirs := false |} []) =
                  (inr (map (fun e => filepath.Join ["."; de_Name e])
                          (filter (fun e => negb (de_IsDir e)) entries)),
                   [StatOp "."; ReadDirOp "."])).
  { unfold targetBody. cbn [Path IncludeSubdirs].
    change (filepath.Clean ".") with ".".
    change (strings.ContainsAny "." "*?[") with false. cbv iota.
    unfold os.Stat, os.ReadDir. cbn [bind run]. rewrite Hstat. cbn [fi_IsDir bind run].
    rewrite Hread. cbn [run Next]. rewrite rangeEntries_spec. reflexivity. }
  unfold eval, trace. rewrite Hbody. reflexivity.
Qed.

Lemma no_target_means_files_of_current_directory_witness :
  run Hosts.currentDir (resolveTargets []) = (inr ["go.mod"], [StatOp "."; ReadDirOp "."]).
Proof.
  exact (proj2 (no_target_means_files_of_current_directory Hosts.currentDir
                  [Scenario.dir "cmd"; Scenario.file "go.mod"] eq_refl eq_refl)).
Defined.

Lemma directory_match_resolution_witness :
  run Scenario.nested
    (matchBody {| Path := "/td/*"; IncludeSubdirs := false |} "/td/sub" ["/td/root.txt"])
  = (inr ["/td/root.txt"; "/td/sub/inner.txt"], [StatOp "/td/sub"; ReadDirOp "/td/sub"]).
Proof.
  exact (proj2 (directory_match_resolution Scenario.nested
                  {| Path := "/td/*"; IncludeSubdirs := false |} "/td/sub" ["/td/root.txt"]
                  eq_refl) eq_refl [Scenario.file "inner.txt"] eq_refl).
Defined.

(** ** The output of git is trimmed once and for all *)

Lemma take_drop n s : take n s ++ drop n s = s.
Proof.
  revert s. induction n as [| n IH]; intros [| c s]; simpl; try reflexivity.
  rewrite IH. reflexivity.
Qed.

Lemma length_drop n s : String.length (drop n s) = (String.length s - n)%nat.
Proof.
  revert s. induction n as [| n IH]; intros [| c s]; simpl; try reflexivity; try lia.
  apply IH.
Qed.

Lemma length_take n s : (n <= String.length s)%nat -> String.length (take n s) = n.
Proof.
  revert s. induction n as [| n IH]; intros [| c s]; simpl; intros H; try reflexivity; try lia.
  rewrite IH; [reflexivity | lia].
Qed.

Lemma take_app s t : take (String.length s) (s ++ t) = s.
Proof. induction s as [| c s IH]; simpl; [destruct t | rewrite IH]; reflexivity. Qed.

Lemma drop_app s t : drop (String.length s) (s ++ t) = t.
Proof. induction s as [| c s IH]; simpl; [destruct t; reflexivity | exact IH]. Qed.

Lemma length_append s t : String.length (s ++ t) = (String.length s + String.length t)%nat.
Proof. induction s as [| c s IH]; simpl; [| rewrite IH]; reflexivity. Qed.

Lemma append_assoc (s t u : string) : (s ++ t) ++ u = s ++ t ++ u.
Proof. induction s as [| c s IH]; simpl; [| rewrite IH]; reflexivity. Qed.

(** A rune is at least one byte and no longer than the string. *)
Lemma decode_size c s :
  (1 <= snd (utf8.DecodeRuneInString (String c s)) <= String.length (String c s))%nat.
Proof.
  unfold utf8.DecodeRuneInString.
  repeat match goal with
         | |- context [if ?b then _ else _] => destruct b
         | |- context [match ?t with EmptyString => _ | String _ _ => _ end] => destruct t
         end; simpl; lia.
Qed.

(** The first rune of a string is the first rune of each of its initial
    parts that holds all the bytes of the rune. *)
Lemma decode_prefix s tail r n :
  s <> "" ->
  utf8.DecodeRuneInString (s ++ tail) = (r, n) ->
  (n <= String.length s)%nat ->
  utf8.DecodeRuneInString s = (r, n).
Proof.
  intros Hne Hdec Hn.
  destruct s as [| c0 s]; [congruence |]. clear Hne.
  unfold utf8.DecodeRuneInString in *. simpl append in Hdec.
  cbv beta iota zeta in Hdec |- *.
  destruct (byte c0 <? utf8.RuneSelf)%Z; [exact Hdec |].
  destruct ((byte c0 <? 194) || (244 <? byte c0))%Z; [exact Hdec |].
  destruct s as [| c1 s]; simpl append in Hdec; cbv beta iota zeta in Hdec |- *.
  { repeat match type of Hdec with
           | context [if ?b then _ else _] => destruct b
           | context [match ?t with EmptyString => _ | String _ _ => _ end] => destruct t
           end; injection Hdec as <- <-; simpl in Hn; try lia; reflexivity. }
  destruct (negb (utf8.between _ _ c1)); [exact Hdec |].
  destruct (byte c0 <? 224)%Z; [exact Hdec |].
  destruct s as [| c2 s]; simpl append in Hdec; cbv beta iota zeta in Hdec |- *.
  { repeat match type of Hdec with
           | context [if ?b then _ else _] => destruct b
           | context [match ?t with EmptyString => _ | String _ _ => _ end] => destruct t
           end; injection Hdec as <- <-; simpl in Hn; try lia; reflexivity. }
  destruct (negb (utf8.between 128 191 c2)); [exact Hdec |].
  destruct (byte c0 <? 240)%Z; [exact Hdec |].
  destruct s as [| c3 s]; simpl append in Hdec; cbv beta iota zeta in Hdec |- *.
  { repeat match type of Hdec with
           | context [if ?b then _ else _] => destruct b
           | context [match ?t with EmptyString => _ | String _ _ => _ end] => destruct t
           end; injection Hdec as <- <-; simpl in Hn; try lia; reflexivity. }
  exact Hdec.
Qed.

Lemma runesN_step fuel s :
  (String.length s <= fuel)%nat -> utf8.runesN (S fuel) s = utf8.runesN fuel s.
Proof.
  revert s. induction fuel as [| fuel IH]; intros s Hlen.
  - destruct s; [reflexivity | simpl in Hlen; lia].
  - destruct s as [| c s]; [reflexivity |].
    change (utf8.runesN (S (S fuel)) (String c s))
      with (let '(r, size) := utf8.DecodeRuneInString (String c s) in
            (r, take size (String c s)) :: utf8.runesN (S fuel) (drop size (String c s))).
    change (utf8.runesN (S fuel) (String c s))
      with (let '(r, size) := utf8.DecodeRuneInString (String c s) in
            (r, take size (String c s)) :: utf8.runesN fuel (drop size (String c s))).
    pose proof (decode_size c s) as Hsize.
    destruct (utf8.DecodeRuneInString (String c s)) as [r size]. simpl snd in Hsize.
    f_equal. apply IH. rewrite length_drop. simpl String.length in *. lia.
Qed.

Lemma runesN_enough fuel s :
  (String.length s <= fuel)%nat -> utf8.runesN fuel s = utf8.runes s.
Proof.
  unfold utf8.runes. induction fuel as [| fuel IH]; intros Hlen.
  - replace (String.length s) with 0%nat by lia. reflexivity.
  - destruct (Nat.eq_dec (String.length s) (S fuel)) as [-> | Hneq]; [reflexivity |].
    rewrite runesN_step by lia. apply IH. lia.
Qed.

(** The runes of a string: its first rune, then the runes of the rest. *)
Lemma runes_unfold c s :
  utf8.runes (String c s) =
  (fst (utf8.DecodeRuneInString (String c s)),
   take (snd (utf8.DecodeRuneInString (String c s))) (String c s))
  :: utf8.runes (drop (snd (utf8.DecodeRuneInString (String c s))) (String c s)).
Proof.
  unfold utf8.runes at 1.
  change (utf8.runesN (String.length (String c s)) (String c s))
    with (let '(r, size) := utf8.DecodeRuneInString (String c s) in
          (r, take size (String c s))
          :: utf8.runesN (String.length s) (drop size (String c s))).
  pose proof (decode_size c s) as Hsize.
  destruct (utf8.DecodeRuneInString (String c s)) as [r size]. simpl fst. simpl snd in *.
  f_equal. apply runesN_enough. rewrite length_drop. simpl String.length in *. lia.
Qed.

Lemma runes_empty : utf8.runes "" = [].
Proof. reflexivity. Qed.

(** The bytes of the runes of a string are the string. *)
Lemma bytesOf_runes s : utf8.bytesOf (utf8.runes s) = s.
Proof.
  remember (String.length s) as n eqn:Hn. revert s Hn.
  induction n as [n IH] using lt_wf_ind. intros s Hn.
  destruct s as [| c s]; [reflexivity |].
  rewrite runes_unfold. simpl utf8.bytesOf.
  pose proof (decode_size c s) as Hsize.
  rewrite (IH (String.length (drop (snd (utf8.DecodeRuneInString (String c s))) (String c s)))).
  - apply take_drop.
  - rewrite length_drop. subst n. simpl String.length in *. lia.
  - reflexivity.
Qed.

Lemma bytesOf_app l1 l2 : utf8.bytesOf (l1 ++ l2) = utf8.bytesOf l1 ++ utf8.bytesOf l2.
Proof.
  induction l1 as [| x l1 IH]; simpl; [reflexivity |].
  rewrite IH, append_assoc. reflexivity.
Qed.

(** A final part of the runes of a string is the runes of its bytes. *)
Lemma runes_suffix l1 : forall s l2, utf8.runes s = (l1 ++ l2)%list -> utf8.runes (utf8.bytesOf l2) = l2.
Proof.
  induction l1 as [| x l1 IH]; intros s l2 H.
  - simpl in H. rewrite <- H, bytesOf_runes. reflexivity.
  - destruct s as [| c s]; [discriminate H |].
    rewrite runes_unfold in H. injection H as _ H. exact (IH _ _ H).
Qed.

(** So is an initial part. *)
Lemma runes_prefix l1 : forall s l2, utf8.runes s = (l1 ++ l2)%list -> utf8.runes (utf8.bytesOf l1) = l1.
Proof.
  induction l1 as [| x l1 IH]; intros s l2 H.
  - reflexivity.
  - destruct s as [| c s]; [discriminate H |].
    pose proof (decode_size c s) as Hsize.
    rewrite runes_unfold in H.
    destruct (utf8.DecodeRuneInString (String c s)) as [r n] eqn:Hdec.
    simpl fst in H. simpl snd in *. injection H as Hx Hrest. subst x.
    pose proof (IH _ _ Hrest) as Hl1.
    assert (Hlen : String.length (take n (String c s)) = n) by (apply length_take; lia).
    assert (Hs : String c s = (take n (String c s) ++ utf8.bytesOf l1) ++ utf8.bytesOf l2).
    { rewrite append_assoc, <- bytesOf_app, <- Hrest, bytesOf_runes, take_drop. reflexivity. }
    assert (Hne : take n (String c s) ++ utf8.bytesOf l1 <> "").
    { destruct n; [lia |]. simpl. discriminate. }
    assert (Hhead : utf8.DecodeRuneInString (take n (String c s) ++ utf8.bytesOf l1) = (r, n)).
    { apply (decode_prefix _ (utf8.bytesOf l2)); [exact Hne | |].
      - rewrite <- Hs. exact Hdec.
      - rewrite length_append, Hlen. lia. }
    simpl utf8.bytesOf.
    destruct (take n (String c s) ++ utf8.bytesOf l1) as [| c' s'] eqn:Hb; [congruence |].
    rewrite runes_unfold, Hhead. simpl fst. simpl snd. rewrite <- Hb.
    rewrite <- Hlen at 1 3. rewrite take_app, drop_app, Hl1. reflexivity.
Qed.

Lemma dropWhile_length {A : Type} (f : A -> bool) l :
  (List.length (strings.dropWhile f l) <= List.length l)%nat.
Proof.
  induction l as [| x l IH]; simpl; [lia |]. destruct (f x); simpl; lia.
Qed.

Lemma dropWhile_is_suffix {A : Type} (f : A -> bool) l :
  exists dropped, l = (dropped ++ strings.dropWhile f l)%list.
Proof.
  induction l as [| x l [dropped IH]]; simpl.
  - exists []. reflexivity.
  - destruct (f x).
    + exists (x :: dropped). simpl. rewrite <- IH. reflexivity.
    + exists []. reflexivity.
Qed.

Lemma dropWhile_idempotent {A : Type} (f : A -> bool) l :
  strings.dropWhile f (strings.dropWhile f l) = strings.dropWhile f l.
Proof.
  induction l as [| x l IH]; simpl; [reflexivity |].
  destruct (f x) eqn:E; [exact IH | simpl; rewrite E; reflexivity].
Qed.

Lemma dropWhile_fixed_prefix {A : Type} (f : A -> bool) (l1 l2 : list A) :
  strings.dropWhile f (l1 ++ l2)%list = (l1 ++ l2)%list ->
  strings.dropWhile f l1 = l1.
Proof.
  destruct l1 as [| x l1]; [reflexivity |]. simpl.
  destruct (f x); [| reflexivity].
  intros H. pose proof (dropWhile_length f (l1 ++ l2)%list) as Hlen.
  rewrite H in Hlen. simpl in Hlen. lia.
Qed.

(** [strings.TrimSpace] changes nothing in what it returns. *)
Lemma TrimSpace_idempotent s :
  strings.TrimSpace (strings.TrimSpace s) = strings.TrimSpace s.
Proof.
  unfold strings.TrimSpace at 2.
  set (left := strings.dropWhile strings.isSpace (utf8.runes s)).
  set (kept := rev (strings.dropWhile strings.isSpace (rev left))).
  destruct (dropWhile_is_suffix strings.isSpace (utf8.runes s)) as [before Hbefore].
  fold left in Hbefore.
  destruct (dropWhile_is_suffix strings.isSpace (rev left)) as [after Hafter].
  assert (Hleft : left = (kept ++ rev after)%list).
  { unfold kept. rewrite <- rev_app_distr, <- Hafter, rev_involutive. reflexivity. }
  assert (Hruns : utf8.runes (utf8.bytesOf kept) = kept).
  { apply (runes_prefix kept (utf8.bytesOf left) (rev after)).
    rewrite (runes_suffix before s left Hbefore). exact Hleft. }
  assert (Hhead : strings.dropWhile strings.isSpace kept = kept).
  { apply (dropWhile_fixed_prefix _ kept (rev after)). rewrite <- Hleft.
    apply dropWhile_idempotent. }
  assert (Hlast : strings.dropWhile strings.isSpace (rev kept) = rev kept).
  { unfold kept. rewrite rev_involutive. apply dropWhile_idempotent. }
  unfold strings.TrimSpace. rewrite Hruns, Hhead, Hlast, rev_involutive. reflexivity.
Qed.

(** X16.  What [gitOutputIn] returns has no white space left at either
    end: trimming it again changes nothing.  So the second trimming of
    the branch name in line 162 has no effect (the name given to fetch
    and rev-list is the output of rev-parse as [gitOutput] returned it),
    and the test of line 187 asks whether the status output is empty. *)
Theorem git_output_is_trimmed :
  forall (w : World) (dir : string) (args : list string),
    strings.TrimSpace (fst (eval w (gitOutputIn dir args))) = fst (eval w (gitOutputIn dir args)) /\
    branchIn w = fst (eval w (gitOutput argsRevParse)) /\
    strings.TrimSpace (fst (eval w (gitOutput argsStatus))) = fst (eval w (gitOutput argsStatus)).
Proof.
  intros w dir args.
  assert (H : forall dir args,
             strings.TrimSpace (fst (eval w (gitOutputIn dir args))) =
             fst (eval w (gitOutputIn dir args))).
  { intros d a. rewrite eval_gitOutputIn. simpl fst. apply TrimSpace_idempotent. }
  split; [apply H |]. split; [unfold branchIn, gitOutput |]; apply H.
Qed.

(** ** The matches of a glob *)

Lemma rangeMatches_as_they_are w t matches :
  Forall (fun m => exists info,
              stat w m = inr info /\ (fi_IsDir info = true -> IncludeSubdirs t = true))
    matches ->
  forall resolved,
    run w (forRange matches (matchBody t) resolved) =
    (inr (resolved ++ matches)%list, map StatOp matches).
Proof.
  induction 1 as [| m matches (info & Hstat & Hdir) _ IH]; intros resolved.
  - simpl. rewrite app_nil_r. reflexivity.
  - assert (Hbody : run w (matchBody t m resolved) = (inr (resolved ++ [m])%list, [StatOp m])).
    { unfold matchBody, os.Stat. cbn [bind run]. rewrite Hstat.
      destruct (fi_IsDir info); [rewrite (Hdir eq_refl) |]; reflexivity. }
    simpl forRange. rewrite run_pair, eval_andThen, trace_andThen.
    unfold eval, trace. rewrite Hbody. cbn [fst snd]. rewrite IH. cbn [fst snd].
    rewrite <- app_assoc. reflexivity.
Qed.

(** X17.  A glob target with at least one match, each match a file or,
    when [IncludeSubdirs] is set, a file or a directory, contributes
    exactly its matches, in the order of the expansion and as the
    expansion spells them; the calls are the expansion and one
    classification per match. *)
Theorem glob_resolves_to_its_matches :
  forall (w : World) (t : PathTarget) (matches resolved : list string),
    let p := filepath.Clean (Path t) in
    strings.ContainsAny p "*?[" = true ->
    glob w p = inr matches ->
    matches <> [] ->
    Forall (fun m => exists info,
                stat w m = inr info /\ (fi_IsDir info = true -> IncludeSubdirs t = true))
      matches ->
    run w (targetBody t resolved) =
    (inr (resolved ++ matches)%list, GlobOp p :: map StatOp matches).
Proof.
  intros w t matches resolved p Hmeta Hglob Hne Hall.
  unfold targetBody. fold p. rewrite Hmeta, run_bind, eval_Glob, Hglob.
  change (trace w (filepath.Glob p)) with [GlobOp p].
  assert (Hlen : (List.length matches =? 0)%nat = false)
    by (destruct matches; [congruence | reflexivity]).
  cbv beta iota. rewrite Hlen.
  pose proof (rangeMatches_as_they_are w t matches Hall resolved) as Hrun.
  rewrite run_pair in Hrun. injection Hrun as Hval Htrace.
  apply f_equal2; [exact Hval | simpl; apply f_equal; exact Htrace].
Qed.

Lemma glob_resolves_to_its_matches_witness :
  run Scenario.nested (targetBody {| Path := "/td/*"; IncludeSubdirs := true |} ["/other"])
  = (inr (["/other"] ++ ["/td/root.txt"; "/td/sub"])%list,
     GlobOp "/td/*" :: map StatOp ["/td/root.txt"; "/td/sub"]).
Proof.
  apply (glob_resolves_to_its_matches Scenario.nested
           {| Path := "/td/*"; IncludeSubdirs := true |} ["/td/root.txt"; "/td/sub"] ["/other"]).
  - reflexivity.
  - reflexivity.
  - discriminate.
  - repeat constructor.
    + exists {| fi_IsDir := false |}. split; [reflexivity | discriminate].
    + exists {| fi_IsDir := true |}. split; reflexivity.
Defined.

(** ** The history of one day, of any length *)

Lemma oneDay_next n :
  oneDay (S (S n)) = ("2025-09-11" ++ String LF "") ++ oneDay (S n).
Proof. reflexivity. Qed.

Lemma allb_append (f : ascii -> bool) s t : allb f (s ++ t) = allb f s && allb f t.
Proof.
  induction s as [| c s IH]; simpl; [reflexivity |].
  rewrite IH. apply andb_assoc.
Qed.

Lemma singles_append s t : singles (s ++ t) = (singles s ++ singles t)%list.
Proof. induction s as [| c s IH]; simpl; [| rewrite IH]; reflexivity. Qed.

(** A string of bytes below [RuneSelf] decodes byte by byte. *)
Lemma runesN_single_bytes s :
  allb (fun c => (byte c <? utf8.RuneSelf)%Z) s = true ->
  forall fuel, (String.length s <= fuel)%nat -> utf8.runesN fuel s = singles s.
Proof.
  induction s as [| c s IH]; intros Hs fuel Hfuel.
  - destruct fuel; reflexivity.
  - cbn [allb] in Hs. apply andb_true_iff in Hs as [Hc Hs].
    destruct fuel as [| fuel]; [simpl in Hfuel; lia |].
    cbn [utf8.runesN utf8.DecodeRuneInString]. rewrite Hc.
    cbn [take drop singles]. f_equal.
    apply IH; [exact Hs | simpl in Hfuel; lia].
Qed.

Lemma dropWhile_stays {A : Type} (f : A -> bool) (x : A) (l : list A) :
  f x = false -> strings.dropWhile f (x :: l) = x :: l.
Proof. intros Hx. simpl. rewrite Hx. reflexivity. Qed.

(** [strings.TrimSpace] leaves such a string as it is when neither its
    first nor its last byte is white space. *)
Lemma TrimSpace_between c d mid :
  let s := String c (mid ++ String d "") in
  allb (fun c => (byte c <? utf8.RuneSelf)%Z) s = true ->
  unicode.IsSpace (byte c) = false ->
  unicode.IsSpace (byte d) = false ->
  strings.TrimSpace s = s.
Proof.
  intros s Hs Hc Hd. unfold strings.TrimSpace, utf8.runes.
  rewrite (runesN_single_bytes s Hs) by apply le_n.
  subst s. cbn [singles]. rewrite dropWhile_stays by exact Hc.
  change ((byte c, String c "") :: singles (mid ++ String d ""))
    with (singles (String c mid ++ String d "")).
  rewrite singles_append.
  set (l := singles (String c mid)).
  change (singles (String d "")) with [(byte d, String d "")].
  rewrite rev_app_distr. cbn [rev app]. rewrite dropWhile_stays by exact Hd.
  change ((byte d, String d "") :: rev l)
    with (rev [(byte d, String d "")] ++ rev l)%list.
  rewrite <- rev_app_distr, rev_involutive. subst l.
  change [(byte d, String d "")] with (singles (String d "")).
  rewrite <- singles_append.
  apply bytesOf_singles.
Qed.

Lemma oneDay_ends n : exists mid, oneDay (S n) = String "2" (mid ++ "1").
Proof.
  induction n as [| n [mid IH]].
  - exists "025-09-1". reflexivity.
  - exists (("025-09-11" ++ String LF "") ++ String "2" mid).
    rewrite oneDay_next, IH, append_assoc. reflexivity.
Qed.

Lemma oneDay_single_bytes n :
  allb (fun c => (byte c <? utf8.RuneSelf)%Z) (oneDay (S n)) = true.
Proof.
  induction n as [| n IH].
  - vm_compute; reflexivity.
  - rewrite oneDay_next, allb_append, IH. vm_compute; reflexivity.
Qed.

Lemma TrimSpace_oneDay n : strings.TrimSpace (oneDay (S n)) = oneDay (S n).
Proof.
  destruct (oneDay_ends n) as [mid Hmid].
  pose proof (oneDay_single_bytes n) as Hs. rewrite Hmid in *.
  apply TrimSpace_between; [exact Hs | vm_compute; reflexivity ..].
Qed.

Lemma Split_day rest :
  strings.Split (("2025-09-11" ++ String LF "") ++ rest) LF
  = "2025-09-11" :: strings.Split rest LF.
Proof. reflexivity. Qed.

(** Every line of the history of one day is the date. *)
Lemma sameDateLines_oneDay n : sameDateLines (oneDay (S n)) "2025-09-11" = S n.
Proof.
  induction n as [| n IH].
  - vm_compute; reflexivity.
  - unfold sameDateLines in *. rewrite oneDay_next, Split_day.
    cbn [filter].
    replace (strings.TrimSpace "2025-09-11" =? "2025-09-11") with true
      by (vm_compute; reflexivity).
    cbn [List.length]. rewrite IH. reflexivity.
Qed.

(** The file of TestGetVersionMetadata_MultipleCommits_Suffix after any
    number of commits on that day. *)
Lemma queried_oneDay n :
  Queried (Scenario.commitsOnOneDay (S n)) [{| Path := "/td/b.txt"; IncludeSubdirs := false |}]
    ["/td/b.txt"] "9c0de41" "2025-09-11" (oneDay (S n)).
Proof.
  constructor.
  - vm_compute; reflexivity.
  - discriminate.
  - vm_compute; reflexivity.
  - vm_compute; reflexivity.
  - rewrite eval_gitOutputIn.
    assert (Hrun : runCmd (Scenario.commitsOnOneDay (S n))
                     (gitCmd (eval (Scenario.commitsOnOneDay (S n)) (chooseWorkDir ["/td/b.txt"]))
                        (argsCount ["/td/b.txt"])) = (oneDay (S n), None))
      by reflexivity.
    rewrite Hrun. cbn [fst snd]. rewrite TrimSpace_oneDay. reflexivity.
Qed.

(** With [2^32 + 1] commits on the latest date the count is
    [2^32 + 1], the rune of line 144 is the letter a again, and the
    branch of line 148 returns the bare date. *)
Lemma commits_of_one_day_come_round n :
  Z.of_nat (S n) = (2 ^ 32 + 1)%Z ->
  eval (Scenario.commitsOnOneDay (S n))
    (GetVersionMetadata [{| Path := "/td/b.txt"; IncludeSubdirs := false |}])
  = ("2025-09-11", "9c0de41", None).
Proof.
  intros Hn. rewrite (GetVersionMetadata_queried _ _ _ _ _ _ (queried_oneDay n)).
  rewrite countSameDate_small; rewrite sameDateLines_oneDay, Hn.
  - reflexivity.
  - reflexivity.
Qed.

(** Claim C10 as stated fails, in both of its parts.  With 27 commits
    on the latest date the count is 27 and what is appended is the
    character after z, an opening brace, which is no letter.  With
    [2^32 + 1] commits on the latest date the count is at least 2, the
    suffix assigned at line 144 is the letter a, the second test of line
    148 holds and the bare date is returned: the branch is reached. *)
Lemma suffix_beyond_the_letters_counterexample :
  sameDateLines (oneDay 27) "2025-09-11" = 27%nat /\
  eval (Scenario.commitsOnOneDay 27)
    (GetVersionMetadata [{| Path := "/td/b.txt"; IncludeSubdirs := false |}])
  = ("2025-09-11-{", "9c0de41", None) /\
  suffixOf 27 = "{" /\
  ~ isLowerLetter (suffixOf 27) /\
  Z.of_nat (sameDateLines (oneDay (S (Z.to_nat (2 ^ 32)))) "2025-09-11") = (2 ^ 32 + 1)%Z /\
  suffixOf (2 ^ 32 + 1) = "a" /\
  eval (Scenario.commitsOnOneDay (S (Z.to_nat (2 ^ 32))))
    (GetVersionMetadata [{| Path := "/td/b.txt"; IncludeSubdirs := false |}])
  = ("2025-09-11", "9c0de41", None).
Proof.
  assert (Hn : Z.of_nat (S (Z.to_nat (2 ^ 32))) = (2 ^ 32 + 1)%Z).
  { rewrite Nat2Z.inj_succ, Z2Nat.id; [reflexivity | discriminate]. }
  split; [vm_compute; reflexivity |].
  split; [vm_compute; reflexivity |].
  split; [reflexivity |].
  split.
  { intros (c & Hc & _ & Hz). change (suffixOf 27) with "{" in Hc.
    injection Hc as <-. apply Hz. reflexivity. }
  split; [rewrite sameDateLines_oneDay; exact Hn |].
  split; [reflexivity |].
  apply commits_of_one_day_come_round. exact Hn.
Qed.
